(** * Notification dispatcher of [interfaces/interface.go]

    A shallow embedding of the notification service (backends
    [EmailNotificador], [SMSNotificador], [SlackNotificador] and the
    dispatcher [ServicioNotificaciones]) and the properties of its
    dispatch core.

    Go strings are byte sequences: they are modelled by [string], whose
    [String.length] is Go's [len].  A Go [error] is [option string]:
    [None] is [nil], [Some msg] an error whose [Error()] text is [msg].

    The program is written in a state monad over a world that holds the
    wall clock, standard output and the heap of backend objects; a run-time
    panic (a nil receiver dereferenced) is the result [None].  The clock is
    an oracle: what [time.Now] returns is an input of the model, and the
    outcome of a delivery, which the program draws from the clock, with it.
    The utilities of PASO 6 and [main] (PASO 7) only print and call the
    functions modelled here; they are not part of the model. *)

From Stdlib Require Import ZArith List Ascii String Permutation.
From stdpp Require Import base option list strings pretty gmap fin_maps.

Local Open Scope string_scope.
Local Open Scope list_scope.
Local Open Scope Z_scope.

(** ** Strings and errors *)

Definition error := option string.

(** [errors.New] *)
Definition errors_New (msg : string) : error := Some msg.

(** [fmt.Errorf(prefijo + "%v", err)] for a non-nil [err]. *)
Definition fmt_Errorf (prefijo msg : string) : error := Some (prefijo +:+ msg).

(** [strings.HasPrefix(s, p)] *)
Fixpoint strings_HasPrefix (s p : string) {struct p} : bool :=
  match p with
  | EmptyString => true
  | String c p' =>
      match s with
      | EmptyString => false
      | String d s' => if Ascii.eqb c d then strings_HasPrefix s' p' else false
      end
  end.

(** [strings.Contains(s, sub)]: [sub] occurs at some offset of [s]. *)
Fixpoint strings_Contains (s sub : string) : bool :=
  strings_HasPrefix s sub ||
  match s with
  | EmptyString => false
  | String _ s' => strings_Contains s' sub
  end.

(** [len(s)] as a Go [int]. *)
Definition len (s : string) : Z := Z.of_nat (String.length s).

(** ** Data types (PASO 3) *)

Inductive TipoNotificacion := Email | SMS | Push | Slack.

Definition TipoNotificacion_string (t : TipoNotificacion) : string :=
  match t with
  | Email => "email" | SMS => "sms" | Push => "push" | Slack => "slack"
  end.

Inductive EstadoNotificacion := Pendiente | Enviada | Fallida | Entregada.

Definition EstadoNotificacion_string (e : EstadoNotificacion) : string :=
  match e with
  | Pendiente => "pendiente" | Enviada => "enviada"
  | Fallida => "fallida" | Entregada => "entregada"
  end.

Global Instance EstadoNotificacion_eq_dec : EqDecision EstadoNotificacion.
Proof. solve_decision. Defined.

Record RegistroNotificacion := {
  ID : string;
  Tipo : TipoNotificacion;
  Destinatario : string;
  Mensaje : string;
  Estado : EstadoNotificacion;
  Timestamp : Z;
  Intentos : Z;
  Error : string
}.

Record ConfiguracionNotificacion := {
  MaxIntentos : Z;
  TimeoutSegundos : Z;
  ReintentoAuto : bool
}.

(** The two assignments [registro.Estado = ...] and [registro.Error = ...]. *)
Definition con_Estado (s : EstadoNotificacion) (r : RegistroNotificacion) :=
  {| ID := ID r; Tipo := Tipo r; Destinatario := Destinatario r;
     Mensaje := Mensaje r; Estado := s; Timestamp := Timestamp r;
     Intentos := Intentos r; Error := Error r |}.

Definition con_Error (e : string) (r : RegistroNotificacion) :=
  {| ID := ID r; Tipo := Tipo r; Destinatario := Destinatario r;
     Mensaje := Mensaje r; Estado := Estado r; Timestamp := Timestamp r;
     Intentos := Intentos r; Error := e |}.

(** ** Validation rules

    The four validation methods never read a field of their receiver, so
    they are functions of the argument alone (and run even on a receiver
    that cannot be dereferenced). *)

Definition EmailNotificador_ValidarMensaje (mensaje : string) : error :=
  if len mensaje =? 0 then errors_New "mensaje no puede estar vacío"
  else if len mensaje >? 1000 then
    errors_New "mensaje muy largo (máximo 1000 caracteres)"
  else None.

Definition EmailNotificador_ValidarDestinatario (destinatario : string) : error :=
  if negb (strings_Contains destinatario "@") then
    errors_New "email inválido: debe contener @"
  else if negb (strings_Contains destinatario ".") then
    errors_New "email inválido: debe contener dominio"
  else None.

Definition SMSNotificador_ValidarMensaje (mensaje : string) : error :=
  if len mensaje =? 0 then errors_New "mensaje SMS no puede estar vacío"
  else if len mensaje >? 160 then
    errors_New "mensaje SMS muy largo (máximo 160 caracteres)"
  else None.

Definition SMSNotificador_ValidarDestinatario (destinatario : string) : error :=
  if len destinatario <? 10 then errors_New "número de teléfono muy corto"
  else if negb (strings_HasPrefix destinatario "+")
          && negb (strings_HasPrefix destinatario "0") then
    errors_New "número debe empezar con + o 0"
  else None.

(** ** Backend objects and interface values *)

Record EmailNotificador := {
  e_servidor : string;
  e_puerto : Z;
  e_usuario : string;
  e_password : string;
  e_configuracion : ConfiguracionNotificacion;
  e_registros : gmap string RegistroNotificacion
}.

Record SMSNotificador := {
  s_apiKey : string;
  s_proveedor : string;
  s_registros : gmap string RegistroNotificacion
}.

Record SlackNotificador := {
  sl_webhook : string;
  sl_canal : string
}.

(** An interface value is a dynamic type together with a pointer; the
    pointer is an address into the heap of objects of that type. *)
Inductive Notificador :=
  | NEmail (p : nat)
  | NSMS (p : nat)
  | NSlack (p : nat).

Inductive ValidadorMensaje := VEmail (p : nat) | VSMS (p : nat).
Inductive Rastreador := REmail (p : nat) | RSMS (p : nat).
Inductive Logger := LEmail (p : nat) | LSMS (p : nat).

Global Instance Notificador_eq_dec : EqDecision Notificador.
Proof. solve_decision. Defined.

(** [fmt.Sprintf("%T", n)] *)
Definition nombre_tipo (n : Notificador) : string :=
  match n with
  | NEmail _ => "*main.EmailNotificador"
  | NSMS _ => "*main.SMSNotificador"
  | NSlack _ => "*main.SlackNotificador"
  end.

(** The type assertions [n.(ValidadorMensaje)], [n.(Rastreador)] and
    [n.(Logger)]: [None] is the [false] of the comma-ok form. *)
Definition como_ValidadorMensaje (n : Notificador) : option ValidadorMensaje :=
  match n with
  | NEmail p => Some (VEmail p)
  | NSMS p => Some (VSMS p)
  | NSlack _ => None
  end.

Definition como_Rastreador (n : Notificador) : option Rastreador :=
  match n with
  | NEmail p => Some (REmail p)
  | NSMS p => Some (RSMS p)
  | NSlack _ => None
  end.




(** ** The world: clock, standard output, heap, and call history *)

(** One line written to standard output.  The timestamp of a log line is
    kept as the clock reading it was formatted from. *)
Inductive Linea :=
  | LineaLog (canal : string) (t : Z) (nivel mensaje : string)
  | LineaSlack (canal usuario mensaje : string).

(** A call made by the dispatcher through an interface, with what it
    returned. *)
Inductive Llamada :=
  | LlEnviarNotificacion (n : Notificador) (destinatario mensaje : string) (r : error)
  | LlValidarMensaje (v : ValidadorMensaje) (mensaje : string) (r : error)
  | LlValidarDestinatario (v : ValidadorMensaje) (destinatario : string) (r : error)
  | LlLogInfo (l : Logger) (mensaje : string)
  | LlLogError (l : Logger) (err : string).

(** - [ahora] is the wall clock in nanoseconds ([UnixNano]); the [k]-th call
      of [time.Now] finds it advanced by [deriva k];
    - [salida] is standard output, oldest line first;
    - [emails], [smss], [slacks] hold the allocated backend objects by
      address;
    - [traza] is a history variable: the interface calls the dispatcher has
      made so far, oldest first.  No program variable corresponds to it and
      no backend reads it. *)
Record Mundo := {
  ahora : Z;
  deriva : nat -> Z;
  lecturas : nat;
  salida : list Linea;
  emails : gmap nat EmailNotificador;
  smss : gmap nat SMSNotificador;
  slacks : gmap nat SlackNotificador;
  traza : list Llamada
}.

Definition con_reloj (t : Z) (k : nat) (w : Mundo) : Mundo :=
  {| ahora := t; deriva := deriva w; lecturas := k; salida := salida w;
     emails := emails w; smss := smss w; slacks := slacks w; traza := traza w |}.

Definition con_salida (o : list Linea) (w : Mundo) : Mundo :=
  {| ahora := ahora w; deriva := deriva w; lecturas := lecturas w; salida := o;
     emails := emails w; smss := smss w; slacks := slacks w; traza := traza w |}.

Definition con_emails (h : gmap nat EmailNotificador) (w : Mundo) : Mundo :=
  {| ahora := ahora w; deriva := deriva w; lecturas := lecturas w;
     salida := salida w; emails := h; smss := smss w; slacks := slacks w;
     traza := traza w |}.

Definition con_smss (h : gmap nat SMSNotificador) (w : Mundo) : Mundo :=
  {| ahora := ahora w; deriva := deriva w; lecturas := lecturas w;
     salida := salida w; emails := emails w; smss := h; slacks := slacks w;
     traza := traza w |}.

Definition con_slacks (h : gmap nat SlackNotificador) (w : Mundo) : Mundo :=
  {| ahora := ahora w; deriva := deriva w; lecturas := lecturas w;
     salida := salida w; emails := emails w; smss := smss w; slacks := h;
     traza := traza w |}.

Definition con_traza (t : list Llamada) (w : Mundo) : Mundo :=
  {| ahora := ahora w; deriva := deriva w; lecturas := lecturas w;
     salida := salida w; emails := emails w; smss := smss w;
     slacks := slacks w; traza := t |}.

(** ** The monad of the program: state, and [None] for a run-time panic *)

Definition M (A : Type) : Type := Mundo -> option (A * Mundo).

Definition ret {A} (a : A) : M A := fun w => Some (a, w).

Definition bind {A B} (c : M A) (k : A -> M B) : M B :=
  fun w => match c w with
           | Some (a, w') => k a w'
           | None => None
           end.

Definition panic {A} : M A := fun _ => None.

Notation "x <- c ;; k" := (bind c (fun x => k))
  (at level 100, c at next level, right associativity).
Notation "c ;;; k" := (bind c (fun _ => k))
  (at level 100, right associativity).

(** [time.Now()].  The program uses the reading as [UnixNano()], as a
    [Timestamp] and as a formatted log time; the only arithmetic it does on
    it is the remainder that decides a delivery. *)
Definition time_Now : M Z :=
  fun w => let t := ahora w + deriva w (lecturas w) in
           Some (t, con_reloj t (S (lecturas w)) w).

(** [time.Sleep(d)], [d] in nanoseconds: the clock has advanced by at least
    [d] when it returns; anything more shows in the next reading. *)
Definition time_Sleep (d : Z) : M unit :=
  fun w => Some (tt, con_reloj (ahora w + d) (lecturas w) w).

Definition Millisecond : Z := 1000000.

Definition imprimir (l : Linea) : M unit :=
  fun w => Some (tt, con_salida (salida w ++ [l]) w).

Definition anotar (ll : Llamada) : M unit :=
  fun w => Some (tt, con_traza (traza w ++ [ll]) w).

(** ** Heap access

    Reading a field through a pointer panics when the pointer does not
    address an object (a nil receiver). *)

Definition leer_email (p : nat) : M EmailNotificador :=
  fun w => match emails w !! p with
           | Some e => Some (e, w)
           | None => None
           end.

Definition leer_sms (p : nat) : M SMSNotificador :=
  fun w => match smss w !! p with
           | Some s => Some (s, w)
           | None => None
           end.

Definition leer_slack (p : nat) : M SlackNotificador :=
  fun w => match slacks w !! p with
           | Some sl => Some (sl, w)
           | None => None
           end.

Definition con_e_registros (rs : gmap string RegistroNotificacion)
    (e : EmailNotificador) : EmailNotificador :=
  {| e_servidor := e_servidor e; e_puerto := e_puerto e;
     e_usuario := e_usuario e; e_password := e_password e;
     e_configuracion := e_configuracion e; e_registros := rs |}.

Definition con_s_registros (rs : gmap string RegistroNotificacion)
    (s : SMSNotificador) : SMSNotificador :=
  {| s_apiKey := s_apiKey s; s_proveedor := s_proveedor s; s_registros := rs |}.

(** An update of the map [e.registros] of the object at [p]. *)
Definition actualizar_e_registros (p : nat)
    (f : gmap string RegistroNotificacion -> gmap string RegistroNotificacion)
    : M unit :=
  e <- leer_email p ;;
  fun w => Some (tt, con_emails (<[p := con_e_registros (f (e_registros e)) e]> (emails w)) w).

Definition actualizar_s_registros (p : nat)
    (f : gmap string RegistroNotificacion -> gmap string RegistroNotificacion)
    : M unit :=
  s <- leer_sms p ;;
  fun w => Some (tt, con_smss (<[p := con_s_registros (f (s_registros s)) s]> (smss w)) w).

(** ** EmailNotificador *)

Definition NuevoEmailNotificador (servidor : string) (puerto : Z)
    (usuario password : string) : M nat :=
  fun w =>
    let p := fresh (dom (emails w)) in
    let e := {| e_servidor := servidor; e_puerto := puerto;
                e_usuario := usuario; e_password := password;
                e_configuracion := {| MaxIntentos := 3; TimeoutSegundos := 30;
                                      ReintentoAuto := true |};
                e_registros := ∅ |} in
    Some (p, con_emails (<[p := e]> (emails w)) w).

Definition EmailNotificador_Log (nivel mensaje : string) : M unit :=
  timestamp <- time_Now ;;
  imprimir (LineaLog "EMAIL" timestamp nivel mensaje).

(** [err.Error()] on a nil [error] panics. *)
Definition EmailNotificador_LogError (err : error) : M unit :=
  match err with
  | Some msg => EmailNotificador_Log "ERROR" msg
  | None => panic
  end.

Definition EmailNotificador_LogInfo (mensaje : string) : M unit :=
  EmailNotificador_Log "INFO" mensaje.

(** Lines 132-143 of [EnviarNotificacion]: the record is built and stored
    under its id, which is returned. *)
Definition EmailNotificador_crear_registro (p : nat)
    (destinatario mensaje : string) : M string :=
  t <- time_Now ;;
  let id := "email_" +:+ pretty t in
  ts <- time_Now ;;
  let registro := {| ID := id; Tipo := Email; Destinatario := destinatario;
                     Mensaje := mensaje; Estado := Pendiente; Timestamp := ts;
                     Intentos := 1; Error := "" |} in
  actualizar_e_registros p (insert id registro) ;;;
  ret id.

(** Lines 145-159 of [EnviarNotificacion].  [registro] is the pointer stored
    in [e.registros] under [id], so assigning to its fields changes the map
    entry in place. *)
Definition EmailNotificador_entregar (p : nat) (destinatario id : string)
    : M error :=
  EmailNotificador_LogInfo ("Enviando email a " +:+ destinatario) ;;;
  time_Sleep (100 * Millisecond) ;;;
  t <- time_Now ;;
  if Z.rem t 10 =? 0 then
    actualizar_e_registros p (alter (con_Estado Fallida) id) ;;;
    actualizar_e_registros p (alter (con_Error "Servidor SMTP no disponible") id) ;;;
    EmailNotificador_LogError (errors_New "Servidor SMTP no disponible") ;;;
    ret (errors_New "fallo al enviar email")
  else
    actualizar_e_registros p (alter (con_Estado Enviada) id) ;;;
    EmailNotificador_LogInfo ("Email enviado exitosamente: " +:+ id) ;;;
    ret None.

Definition EmailNotificador_EnviarNotificacion (p : nat)
    (destinatario mensaje : string) : M error :=
  match EmailNotificador_ValidarDestinatario destinatario with
  | Some err => ret (Some err)
  | None =>
      match EmailNotificador_ValidarMensaje mensaje with
      | Some err => ret (Some err)
      | None =>
          id <- EmailNotificador_crear_registro p destinatario mensaje ;;
          EmailNotificador_entregar p destinatario id
      end
  end.

Definition EmailNotificador_ObtenerEstado (p : nat) (id : string)
    : M (string * error) :=
  e <- leer_email p ;;
  match e_registros e !! id with
  | Some registro => ret (EstadoNotificacion_string (Estado registro), None)
  | None => ret ("", errors_New "notificación no encontrada")
  end.

(** [stats[k]++]; a key that is absent reads as [0]. *)
Definition incrementar (k : string) (stats : gmap string Z) : gmap string Z :=
  <[k := default 0 (stats !! k) + 1]> stats.

(** The body of the loop of [ObtenerEstadisticas]. *)
Definition EmailNotificador_contar (registro : RegistroNotificacion)
    (stats : gmap string Z) : gmap string Z :=
  let stats := incrementar "total" stats in
  match Estado registro with
  | Enviada => incrementar "enviadas" stats
  | Fallida => incrementar "fallidas" stats
  | Pendiente => incrementar "pendientes" stats
  | Entregada => stats
  end.

Definition EmailNotificador_stats0 : gmap string Z :=
  <["total" := 0]> (<["enviadas" := 0]> (<["fallidas" := 0]>
    (<["pendientes" := 0]> ∅))).

(** The loop ranges over the map in an order Go leaves unspecified; the
    fold below visits the entries in the order of [map_to_list], and
    [contar_permutacion] shows the order is immaterial. *)
Definition EmailNotificador_ObtenerEstadisticas (p : nat) : M (gmap string Z) :=
  e <- leer_email p ;;
  ret (foldr EmailNotificador_contar EmailNotificador_stats0
         (snd <$> map_to_list (e_registros e))).

(** ** SMSNotificador *)

Definition NuevoSMSNotificador (apiKey proveedor : string) : M nat :=
  fun w =>
    let p := fresh (dom (smss w)) in
    let s := {| s_apiKey := apiKey; s_proveedor := proveedor;
                s_registros := ∅ |} in
    Some (p, con_smss (<[p := s]> (smss w)) w).

Definition SMSNotificador_Log (nivel mensaje : string) : M unit :=
  timestamp <- time_Now ;;
  imprimir (LineaLog "SMS" timestamp nivel mensaje).

Definition SMSNotificador_LogError (err : error) : M unit :=
  match err with
  | Some msg => SMSNotificador_Log "ERROR" msg
  | None => panic
  end.

Definition SMSNotificador_LogInfo (mensaje : string) : M unit :=
  SMSNotificador_Log "INFO" mensaje.

(** Lines 252-262 of [EnviarNotificacion]. *)
Definition SMSNotificador_crear_registro (p : nat)
    (destinatario mensaje : string) : M string :=
  t <- time_Now ;;
  let id := "sms_" +:+ pretty t in
  ts <- time_Now ;;
  let registro := {| ID := id; Tipo := SMS; Destinatario := destinatario;
                     Mensaje := mensaje; Estado := Pendiente; Timestamp := ts;
                     Intentos := 1; Error := "" |} in
  actualizar_s_registros p (insert id registro) ;;;
  ret id.

(** Lines 264-277 of [EnviarNotificacion]. *)
Definition SMSNotificador_entregar (p : nat) (destinatario id : string)
    : M error :=
  s <- leer_sms p ;;
  SMSNotificador_LogInfo
    ("Enviando SMS a " +:+ destinatario +:+ " via " +:+ s_proveedor s) ;;;
  time_Sleep (50 * Millisecond) ;;;
  t <- time_Now ;;
  if Z.rem t 20 =? 0 then
    actualizar_s_registros p (alter (con_Estado Fallida) id) ;;;
    actualizar_s_registros p (alter (con_Error "Número no válido") id) ;;;
    SMSNotificador_LogError (errors_New "Número no válido") ;;;
    ret (errors_New "fallo al enviar SMS")
  else
    actualizar_s_registros p (alter (con_Estado Enviada) id) ;;;
    SMSNotificador_LogInfo ("SMS enviado exitosamente: " +:+ id) ;;;
    ret None.

Definition SMSNotificador_EnviarNotificacion (p : nat)
    (destinatario mensaje : string) : M error :=
  match SMSNotificador_ValidarDestinatario destinatario with
  | Some err => ret (Some err)
  | None =>
      match SMSNotificador_ValidarMensaje mensaje with
      | Some err => ret (Some err)
      | None =>
          id <- SMSNotificador_crear_registro p destinatario mensaje ;;
          SMSNotificador_entregar p destinatario id
      end
  end.

Definition SMSNotificador_ObtenerEstado (p : nat) (id : string)
    : M (string * error) :=
  s <- leer_sms p ;;
  match s_registros s !! id with
  | Some registro => ret (EstadoNotificacion_string (Estado registro), None)
  | None => ret ("", errors_New "SMS no encontrado")
  end.

Definition SMSNotificador_contar (registro : RegistroNotificacion)
    (stats : gmap string Z) : gmap string Z :=
  let stats := incrementar "total" stats in
  match Estado registro with
  | Enviada => incrementar "enviados" stats
  | Fallida => incrementar "fallidos" stats
  | Pendiente => incrementar "pendientes" stats
  | Entregada => stats
  end.

Definition SMSNotificador_stats0 : gmap string Z :=
  <["total" := 0]> (<["enviados" := 0]> (<["fallidos" := 0]>
    (<["pendientes" := 0]> ∅))).

Definition SMSNotificador_ObtenerEstadisticas (p : nat) : M (gmap string Z) :=
  s <- leer_sms p ;;
  ret (foldr SMSNotificador_contar SMSNotificador_stats0
         (snd <$> map_to_list (s_registros s))).

(** ** SlackNotificador *)

Definition NuevoSlackNotificador (webhook canal : string) : M nat :=
  fun w =>
    let p := fresh (dom (slacks w)) in
    Some (p, con_slacks (<[p := {| sl_webhook := webhook; sl_canal := canal |}]>
                           (slacks w)) w).

Definition SlackNotificador_EnviarNotificacion (p : nat)
    (destinatario mensaje : string) : M error :=
  sl <- leer_slack p ;;
  imprimir (LineaSlack (sl_canal sl) destinatario mensaje) ;;;
  time_Sleep (10 * Millisecond) ;;;
  ret None.

(** ** Method calls through the interfaces (dynamic dispatch) *)

Definition EnviarNotificacion (n : Notificador)
    (destinatario mensaje : string) : M error :=
  match n with
  | NEmail p => EmailNotificador_EnviarNotificacion p destinatario mensaje
  | NSMS p => SMSNotificador_EnviarNotificacion p destinatario mensaje
  | NSlack p => SlackNotificador_EnviarNotificacion p destinatario mensaje
  end.

Definition ValidarMensaje (v : ValidadorMensaje) (mensaje : string) : error :=
  match v with
  | VEmail _ => EmailNotificador_ValidarMensaje mensaje
  | VSMS _ => SMSNotificador_ValidarMensaje mensaje
  end.

Definition ValidarDestinatario (v : ValidadorMensaje) (destinatario : string)
    : error :=
  match v with
  | VEmail _ => EmailNotificador_ValidarDestinatario destinatario
  | VSMS _ => SMSNotificador_ValidarDestinatario destinatario
  end.

Definition ObtenerEstado (r : Rastreador) (id : string) : M (string * error) :=
  match r with
  | REmail p => EmailNotificador_ObtenerEstado p id
  | RSMS p => SMSNotificador_ObtenerEstado p id
  end.

Definition ObtenerEstadisticas (r : Rastreador) : M (gmap string Z) :=
  match r with
  | REmail p => EmailNotificador_ObtenerEstadisticas p
  | RSMS p => SMSNotificador_ObtenerEstadisticas p
  end.

Definition Log (l : Logger) (nivel mensaje : string) : M unit :=
  match l with
  | LEmail _ => EmailNotificador_Log nivel mensaje
  | LSMS _ => SMSNotificador_Log nivel mensaje
  end.

Definition LogError (l : Logger) (err : error) : M unit :=
  match l with
  | LEmail _ => EmailNotificador_LogError err
  | LSMS _ => SMSNotificador_LogError err
  end.

Definition LogInfo (l : Logger) (mensaje : string) : M unit :=
  match l with
  | LEmail _ => EmailNotificador_LogInfo mensaje
  | LSMS _ => SMSNotificador_LogInfo mensaje
  end.

(** ** ServicioNotificaciones (PASO 5)

    Every interface call of the dispatcher is entered in [traza] when it
    returns. *)

Record ServicioNotificaciones := {
  notificadores : list Notificador;
  logger : option Logger
}.

Definition NuevoServicioNotificaciones : ServicioNotificaciones :=
  {| notificadores := []; logger := None |}.

Definition sn_EnviarNotificacion (n : Notificador)
    (destinatario mensaje : string) : M error :=
  err <- EnviarNotificacion n destinatario mensaje ;;
  anotar (LlEnviarNotificacion n destinatario mensaje err) ;;;
  ret err.

Definition sn_ValidarMensaje (v : ValidadorMensaje) (mensaje : string)
    : M error :=
  let err := ValidarMensaje v mensaje in
  anotar (LlValidarMensaje v mensaje err) ;;;
  ret err.

Definition sn_ValidarDestinatario (v : ValidadorMensaje)
    (destinatario : string) : M error :=
  let err := ValidarDestinatario v destinatario in
  anotar (LlValidarDestinatario v destinatario err) ;;;
  ret err.

(** [if sn.logger != nil { sn.logger.LogInfo(mensaje) }] *)
Definition sn_LogInfo (lg : option Logger) (mensaje : string) : M unit :=
  match lg with
  | Some l => LogInfo l mensaje ;;; anotar (LlLogInfo l mensaje)
  | None => ret tt
  end.

(** [if sn.logger != nil { sn.logger.LogError(errors.New(texto)) }] *)
Definition sn_LogError (lg : option Logger) (texto : string) : M unit :=
  match lg with
  | Some l => LogError l (Some texto) ;;; anotar (LlLogError l texto)
  | None => ret tt
  end.

Definition AgregarNotificador (sn : ServicioNotificaciones)
    (notificador : Notificador) : M ServicioNotificaciones :=
  let sn' := {| notificadores := notificadores sn ++ [notificador];
                logger := logger sn |} in
  sn_LogInfo (logger sn') ("Notificador agregado: " +:+ nombre_tipo notificador) ;;;
  ret sn'.

Definition EstablecerLogger (sn : ServicioNotificaciones) (l : option Logger)
    : ServicioNotificaciones :=
  {| notificadores := notificadores sn; logger := l |}.

(** The [for] loop of [EnviarATodos] (lines 401-413), from the results
    gathered so far. *)
Fixpoint EnviarATodos_bucle (lg : option Logger) (ns : list Notificador)
    (destinatario mensaje : string) (resultados : gmap string error)
    : M (gmap string error) :=
  match ns with
  | [] => ret resultados
  | notificador :: ns' =>
      let tipoNotificador := nombre_tipo notificador in
      err <- sn_EnviarNotificacion notificador destinatario mensaje ;;
      let resultados := <[tipoNotificador := err]> resultados in
      match err with
      | Some msg => sn_LogError lg (tipoNotificador +:+ " falló: " +:+ msg)
      | None => sn_LogInfo lg (tipoNotificador +:+ " éxito")
      end ;;;
      EnviarATodos_bucle lg ns' destinatario mensaje resultados
  end.

Definition EnviarATodos (sn : ServicioNotificaciones)
    (destinatario mensaje : string) : M (gmap string error) :=
  sn_LogInfo (logger sn)
    ("Enviando a " +:+ pretty (length (notificadores sn)) +:+ " notificadores") ;;;
  EnviarATodos_bucle (logger sn) (notificadores sn) destinatario mensaje ∅.

(** The [for] loop of [EnviarConValidacion] (lines 422-442); [continue]
    is the recursive call on the rest of the slice. *)
Fixpoint EnviarConValidacion_bucle (ns : list Notificador)
    (destinatario mensaje : string) (resultados : gmap string error)
    : M (gmap string error) :=
  match ns with
  | [] => ret resultados
  | notificador :: ns' =>
      let tipoNotificador := nombre_tipo notificador in
      let enviar :=
        err <- sn_EnviarNotificacion notificador destinatario mensaje ;;
        EnviarConValidacion_bucle ns' destinatario mensaje
          (<[tipoNotificador := err]> resultados) in
      match como_ValidadorMensaje notificador with
      | Some validador =>
          errM <- sn_ValidarMensaje validador mensaje ;;
          match errM with
          | Some msg =>
              EnviarConValidacion_bucle ns' destinatario mensaje
                (<[tipoNotificador := fmt_Errorf "validación falló: " msg]> resultados)
          | None =>
              errD <- sn_ValidarDestinatario validador destinatario ;;
              match errD with
              | Some msg =>
                  EnviarConValidacion_bucle ns' destinatario mensaje
                    (<[tipoNotificador := fmt_Errorf "destinatario inválido: " msg]>
                       resultados)
              | None => enviar
              end
          end
      | None => enviar
      end
  end.

Definition EnviarConValidacion (sn : ServicioNotificaciones)
    (destinatario mensaje : string) : M (gmap string error) :=
  EnviarConValidacion_bucle (notificadores sn) destinatario mensaje ∅.

(** ** Vocabulary of the properties *)

(** The object behind the interface value is allocated. *)
Definition asignado (n : Notificador) (w : Mundo) : Prop :=
  match n with
  | NEmail p => is_Some (emails w !! p)
  | NSMS p => is_Some (smss w !! p)
  | NSlack p => is_Some (slacks w !! p)
  end.

Global Instance asignado_dec n w : Decision (asignado n w).
Proof. destruct n; simpl; apply _. Defined.

(** The Record Store of a backend: the map [registros] of the object, for
    the two backend types that have one. *)
Definition almacen (n : Notificador) (w : Mundo)
    : option (gmap string RegistroNotificacion) :=
  match n with
  | NEmail p => e_registros <$> emails w !! p
  | NSMS p => s_registros <$> smss w !! p
  | NSlack _ => None
  end.

(** What [EnviarNotificacion] itself checks before anything else: the
    destination, then the message ([SlackNotificador] checks nothing). *)
Definition validacion_propia (n : Notificador) (destinatario mensaje : string)
    : error :=
  match como_ValidadorMensaje n with
  | Some v =>
      match ValidarDestinatario v destinatario with
      | Some err => Some err
      | None => ValidarMensaje v mensaje
      end
  | None => None
  end.

(** Record ids are [prefijo_id] followed by a clock reading in decimal. *)
Definition prefijo_id (n : Notificador) : string :=
  match n with
  | NEmail _ => "email_"
  | NSMS _ => "sms_"
  | NSlack _ => ""
  end.

(** The id the next record of the backend gets (for the two backend types
    that keep records). *)
Definition id_siguiente (n : Notificador) (w : Mundo) : string :=
  prefijo_id n +:+ pretty (ahora w + deriva w (lecturas w)).

(** The wall clock never steps back. *)
Definition reloj_monotono (w : Mundo) : Prop := forall k, 0 <= deriva w k.

(** Every id in a Record Store was made from a clock reading that is now
    in the past. *)
Definition ids_pasados (w : Mundo) : Prop :=
  forall n rs id, almacen n w = Some rs -> is_Some (rs !! id) ->
    exists t, id = prefijo_id n +:+ pretty t /\ t < ahora w.

Definition coherente (w : Mundo) : Prop := reloj_monotono w /\ ids_pasados w.

(** The entries of the history that are calls of [EnviarNotificacion]. *)
Definition es_envio (ll : Llamada) : bool :=
  match ll with
  | LlEnviarNotificacion _ _ _ _ => true
  | _ => false
  end.

Definition envios (t : list Llamada) : list Llamada := List.filter es_envio t.

(** Between two worlds every Record Store keeps each of its records as it
    was, and every record found afterwards is either one of those or a record
    in state [Enviada] or [Fallida]. *)
Definition almacenes_crecen (w w' : Mundo) : Prop :=
  (forall n rs, almacen n w = Some rs ->
     exists rs', almacen n w' = Some rs' /\ rs ⊆ rs') /\
  (forall n rs' id reg, almacen n w' = Some rs' -> rs' !! id = Some reg ->
     (exists rs, almacen n w = Some rs /\ rs !! id = Some reg) \/
     Estado reg = Enviada \/ Estado reg = Fallida).

(** The results map after the outcomes [errs] of the backends [ns] have been
    stored in it one after the other, each under the type name of its
    backend. *)
Fixpoint recoger (ns : list Notificador) (errs : list error)
    (res : gmap string error) : gmap string error :=
  match ns, errs with
  | n :: ns', e :: errs' => recoger ns' errs' (<[nombre_tipo n := e]> res)
  | _, _ => res
  end.

(** Position [j] is the last registration of its type name. *)
Definition ultimo_de_su_tipo (ns : list Notificador) (j : nat) : Prop :=
  forall n j' n', ns !! j = Some n -> (j < j')%nat -> ns !! j' = Some n' ->
    nombre_tipo n' <> nombre_tipo n.

(** The world changes, but only forward: same clock oracle, a clock that has
    not gone back, the same objects allocated. *)
Definition sigue (w w' : Mundo) : Prop :=
  deriva w' = deriva w /\
  (reloj_monotono w -> ahora w <= ahora w') /\
  (forall n, asignado n w' <-> asignado n w).

(** The outcome [e] is one that [EnviarNotificacion] of [n] returned, and it
    is the backend's own validation error whenever there is one. *)
Definition resultado_de_envio (d m : string) (n : Notificador) (e : error)
    : Prop :=
  (forall msg, validacion_propia n d m = Some msg -> e = Some msg) /\
  (exists w0 w0', EnviarNotificacion n d m w0 = Some (e, w0')).

(** The failure outcome [EnviarConValidacion] stores for a backend that its
    own validation (lines 426-437) turns down; [None] when the backend has no
    [ValidadorMensaje] or passes. *)
Definition rechazo_validacion (n : Notificador) (d m : string) : error :=
  match como_ValidadorMensaje n with
  | None => None
  | Some v =>
      match ValidarMensaje v m with
      | Some msg => fmt_Errorf "validación falló: " msg
      | None =>
          match ValidarDestinatario v d with
          | Some msg => fmt_Errorf "destinatario inválido: " msg
          | None => None
          end
      end
  end.

(** The interface calls of one round of the loop of [EnviarConValidacion] on
    backend [n], [e] being what [EnviarNotificacion] returned if it was
    called. *)
Definition llamadas_con_validacion (d m : string) (n : Notificador) (e : error)
    : list Llamada :=
  match como_ValidadorMensaje n with
  | None => [LlEnviarNotificacion n d m e]
  | Some v =>
      LlValidarMensaje v m (ValidarMensaje v m) ::
      match ValidarMensaje v m with
      | Some _ => []
      | None =>
          LlValidarDestinatario v d (ValidarDestinatario v d) ::
          match ValidarDestinatario v d with
          | Some _ => []
          | None => [LlEnviarNotificacion n d m e]
          end
      end
  end.

(** The outcome of one round: the validation failure, or else a result of
    [EnviarNotificacion]. *)
Definition resultado_validado (d m : string) (n : Notificador) (e : error)
    : Prop :=
  match rechazo_validacion n d m with
  | Some msg => e = Some msg
  | None => resultado_de_envio d m n e
  end.


(** The length limits written in the two [ValidarMensaje], and the error
    each returns beyond its limit. *)
Definition limite_mensaje (v : ValidadorMensaje) : Z :=
  match v with
  | VEmail _ => 1000
  | VSMS _ => 160
  end.

Definition error_mensaje_largo (v : ValidadorMensaje) : string :=
  match v with
  | VEmail _ => "mensaje muy largo (máximo 1000 caracteres)"
  | VSMS _ => "mensaje SMS muy largo (máximo 160 caracteres)"
  end.

(** One record per call, as a property of one call: the call returns, the
    backend's Record Store gains exactly one record, under an id that was not
    in it, the record is [Enviada] or [Fallida], and an error is returned
    exactly when it is [Fallida]. *)
Definition envio_crea_un_registro (n : Notificador) (d m : string) (w : Mundo)
    : Prop :=
  exists err w' rs id reg,
    EnviarNotificacion n d m w = Some (err, w') /\
    almacen n w = Some rs /\ rs !! id = None /\
    almacen n w' = Some (<[id := reg]> rs) /\
    (Estado reg = Enviada \/ Estado reg = Fallida) /\
    (is_Some err <-> Estado reg = Fallida).

(** The loop body and the initial counters of [ObtenerEstadisticas], by
    backend type. *)
Definition contar (r : Rastreador)
    : RegistroNotificacion -> gmap string Z -> gmap string Z :=
  match r with
  | REmail _ => EmailNotificador_contar
  | RSMS _ => SMSNotificador_contar
  end.

Definition stats0 (r : Rastreador) : gmap string Z :=
  match r with
  | REmail _ => EmailNotificador_stats0
  | RSMS _ => SMSNotificador_stats0
  end.

(** How many records of a list are in a given state. *)
Definition cuantos (s : EstadoNotificacion) (l : list RegistroNotificacion) : Z :=
  Z.of_nat (length (filter (fun reg => Estado reg = s) l)).

(** The counts by state of a list of records, under the category names of
    the backend type. *)
Definition resumen (r : Rastreador) (l : list RegistroNotificacion)
    : gmap string Z :=
  match r with
  | REmail _ =>
      <["total" := Z.of_nat (length l)]> (<["enviadas" := cuantos Enviada l]>
        (<["fallidas" := cuantos Fallida l]>
          (<["pendientes" := cuantos Pendiente l]> ∅)))
  | RSMS _ =>
      <["total" := Z.of_nat (length l)]> (<["enviados" := cuantos Enviada l]>
        (<["fallidos" := cuantos Fallida l]>
          (<["pendientes" := cuantos Pendiente l]> ∅)))
  end.

(** The error text of [ObtenerEstado] for an id that is not in the store. *)
Definition error_no_encontrado (r : Rastreador) : string :=
  match r with
  | REmail _ => "notificación no encontrada"
  | RSMS _ => "SMS no encontrado"
  end.

(** The backends with tracking are the ones with a Record Store. *)
Definition notificador_de (r : Rastreador) : Notificador :=
  match r with
  | REmail p => NEmail p
  | RSMS p => NSMS p
  end.



(** The operations of the backends and of the dispatcher. *)
Inductive Operacion :=
  | OpNuevoEmailNotificador (servidor : string) (puerto : Z) (usuario password : string)
  | OpNuevoSMSNotificador (apiKey proveedor : string)
  | OpNuevoSlackNotificador (webhook canal : string)
  | OpEnviarNotificacion (n : Notificador) (d m : string)
  | OpValidarMensaje (v : ValidadorMensaje) (m : string)
  | OpValidarDestinatario (v : ValidadorMensaje) (d : string)
  | OpObtenerEstado (r : Rastreador) (id : string)
  | OpObtenerEstadisticas (r : Rastreador)
  | OpLog (l : Logger) (nivel mensaje : string)
  | OpLogError (l : Logger) (err : error)
  | OpLogInfo (l : Logger) (mensaje : string)
  | OpAgregarNotificador (sn : ServicioNotificaciones) (n : Notificador)
  | OpEnviarATodos (sn : ServicioNotificaciones) (d m : string)
  | OpEnviarConValidacion (sn : ServicioNotificaciones) (d m : string).

(** The world an operation leaves, its result dropped. *)
Definition mundo_tras {A} (c : M A) (w : Mundo) : option Mundo := snd <$> c w.

Definition ejecutar (op : Operacion) : Mundo -> option Mundo :=
  match op with
  | OpNuevoEmailNotificador servidor puerto usuario password =>
      mundo_tras (NuevoEmailNotificador servidor puerto usuario password)
  | OpNuevoSMSNotificador apiKey proveedor =>
      mundo_tras (NuevoSMSNotificador apiKey proveedor)
  | OpNuevoSlackNotificador webhook canal =>
      mundo_tras (NuevoSlackNotificador webhook canal)
  | OpEnviarNotificacion n d m => mundo_tras (EnviarNotificacion n d m)
  | OpValidarMensaje v m => mundo_tras (ret (ValidarMensaje v m))
  | OpValidarDestinatario v d => mundo_tras (ret (ValidarDestinatario v d))
  | OpObtenerEstado r id => mundo_tras (ObtenerEstado r id)
  | OpObtenerEstadisticas r => mundo_tras (ObtenerEstadisticas r)
  | OpLog l nivel mensaje => mundo_tras (Log l nivel mensaje)
  | OpLogError l err => mundo_tras (LogError l err)
  | OpLogInfo l mensaje => mundo_tras (LogInfo l mensaje)
  | OpAgregarNotificador sn n => mundo_tras (AgregarNotificador sn n)
  | OpEnviarATodos sn d m => mundo_tras (EnviarATodos sn d m)
  | OpEnviarConValidacion sn d m => mundo_tras (EnviarConValidacion sn d m)
  end.

(** The receivers the operation dereferences are allocated, and [LogError]
    is given an error. *)
Definition operacion_valida (op : Operacion) (w : Mundo) : Prop :=
  match op with
  | OpEnviarNotificacion n _ _ => asignado n w
  | OpObtenerEstado r _ | OpObtenerEstadisticas r => asignado (notificador_de r) w
  | OpLogError _ err => is_Some err
  | OpEnviarATodos sn _ _ | OpEnviarConValidacion sn _ _ =>
      Forall (fun n => asignado n w) (notificadores sn)
  | _ => True
  end.

(** No record of any store is in state [Entregada]. *)
Definition sin_entregadas (w : Mundo) : Prop :=
  forall n rs id reg, almacen n w = Some rs -> rs !! id = Some reg ->
    Estado reg <> Entregada.

(** [alcanza w w']: the world [w'] is reached from [w] by running
    operations one after the other. *)
Inductive alcanza : Mundo -> Mundo -> Prop :=
  | alcanza_aqui w : alcanza w w
  | alcanza_paso w op w' w'' :
      operacion_valida op w -> ejecutar op w = Some w' ->
      alcanza w' w'' -> alcanza w w''.

(** [strings.Repeat(s, count)] *)
Fixpoint strings_Repeat (s : string) (count : nat) : string :=
  match count with
  | O => ""
  | S k => s +:+ strings_Repeat s k
  end.

(** ** A concrete world, for the examples

    Two email backends, one SMS backend and one Slack backend, freshly
    built; a clock that advances by 7 ns between readings. *)

Definition email_ej : EmailNotificador :=
  {| e_servidor := "smtp.gmail.com"; e_puerto := 587;
     e_usuario := "app@empresa.com"; e_password := "password";
     e_configuracion := {| MaxIntentos := 3; TimeoutSegundos := 30;
                           ReintentoAuto := true |};
     e_registros := ∅ |}.

Definition sms_ej : SMSNotificador :=
  {| s_apiKey := "api-key-123"; s_proveedor := "Twilio"; s_registros := ∅ |}.

Definition slack_ej : SlackNotificador :=
  {| sl_webhook := "https://hooks.slack.com/"; sl_canal := "#general" |}.

Definition mundo_ej : Mundo :=
  {| ahora := 1700000000000000000; deriva := fun _ => 7; lecturas := 0;
     salida := [];
     emails := <[1%nat := email_ej]> {[0%nat := email_ej]};
     smss := {[0%nat := sms_ej]};
     slacks := {[0%nat := slack_ej]};
     traza := [] |}.

(** The world after one successful email, and the record it left. *)
Definition mundo_tras_envio : Mundo :=
  match EnviarNotificacion (NEmail 0) "user@x.com" "hi" mundo_ej with
  | Some (_, w) => w
  | None => mundo_ej
  end.

Definition registro_ej : RegistroNotificacion :=
  {| ID := "email_1700000000000000007"; Tipo := Email;
     Destinatario := "user@x.com"; Mensaje := "hi"; Estado := Enviada;
     Timestamp := 1700000000000000014; Intentos := 1; Error := "" |}.

Definition servicio_ej : ServicioNotificaciones :=
  {| notificadores := [NEmail 0; NSMS 0; NSlack 0]; logger := Some (LEmail 0) |}.

Definition servicio_doble_ej : ServicioNotificaciones :=
  {| notificadores := [NEmail 0; NSlack 0; NEmail 1]; logger := None |}.

(** ** Further vocabulary: the rest of the backends and of the dispatcher *)

(** The error [EnviarNotificacion] returns when the delivery itself fails,
    and the text it leaves in the record, by backend type. *)
Definition error_entrega (n : Notificador) : string :=
  match n with
  | NEmail _ => "fallo al enviar email"
  | NSMS _ => "fallo al enviar SMS"
  | NSlack _ => ""
  end.

Definition error_registro (n : Notificador) : string :=
  match n with
  | NEmail _ => "Servidor SMTP no disponible"
  | NSMS _ => "Número no válido"
  | NSlack _ => ""
  end.

(** The [Tipo] a backend writes in its records. *)
Definition tipo_de (n : Notificador) : TipoNotificacion :=
  match n with
  | NEmail _ => Email
  | NSMS _ => SMS
  | NSlack _ => Slack
  end.

(** A record as [EnviarNotificacion] of backend [n] leaves it under key
    [id]: stored under its own id, of the backend's type, one attempt, and
    either sent with no error text or failed with the backend's error
    text. *)
Definition registro_bien_formado (n : Notificador) (id : string)
    (reg : RegistroNotificacion) : Prop :=
  ID reg = id /\ Tipo reg = tipo_de n /\ Intentos reg = 1 /\
  (Estado reg = Enviada /\ Error reg = "" \/
   Estado reg = Fallida /\ Error reg = error_registro n).

Definition almacenes_bien_formados (w : Mundo) : Prop :=
  forall n rs id reg, almacen n w = Some rs -> rs !! id = Some reg ->
    registro_bien_formado n id reg.

(** The category names of [ObtenerEstadisticas], by backend type. *)
Definition clave_enviadas (r : Rastreador) : string :=
  match r with
  | REmail _ => "enviadas"
  | RSMS _ => "enviados"
  end.

Definition clave_fallidas (r : Rastreador) : string :=
  match r with
  | REmail _ => "fallidas"
  | RSMS _ => "fallidos"
  end.

(** The statistics of a store with [e] records sent, [f] failed and none in
    another state. *)
Definition estadisticas_de (r : Rastreador) (e f : Z) : gmap string Z :=
  <["total" := e + f]> (<[clave_enviadas r := e]>
    (<[clave_fallidas r := f]> (<["pendientes" := 0]> ∅))).

(** What an outcome of [EnviarConValidacion] for backend [n] can be: the
    failure of the dispatcher's validation, or else nothing or the delivery
    failure of a backend that keeps records. *)
Definition resultado_clasificado (d m : string) (n : Notificador) (e : error)
    : Prop :=
  match rechazo_validacion n d m with
  | Some msg => e = Some msg
  | None => e = None \/ e = Some (error_entrega n) /\ is_Some (como_Rastreador n)
  end.

(** One step by which a dispatch of [sn] with arguments [d], [m] changes the
    world: a call of [EnviarNotificacion] with those arguments on a
    registered backend, a call of the shared logger, or an entry in the
    history. *)
Inductive paso_servicio (sn : ServicioNotificaciones) (d m : string)
    : Mundo -> Mundo -> Prop :=
  | paso_envio n w err w' :
      n ∈ notificadores sn -> asignado n w ->
      EnviarNotificacion n d m w = Some (err, w') ->
      paso_servicio sn d m w w'
  | paso_log l nivel mensaje w w' :
      logger sn = Some l -> Log l nivel mensaje w = Some (tt, w') ->
      paso_servicio sn d m w w'
  | paso_traza t w :
      paso_servicio sn d m w (con_traza t w).

(** What holds of a backend with tracking right after its constructor, from
    world [w] to world [w']: it is a new object with an empty store, its
    statistics are all zero and it finds no id; nothing else has changed. *)
Definition recien_construido (r : Rastreador) (w w' : Mundo) : Prop :=
  ~ asignado (notificador_de r) w /\
  asignado (notificador_de r) w' /\
  almacen (notificador_de r) w' = Some ∅ /\
  (forall n, n <> notificador_de r ->
     almacen n w' = almacen n w /\ (asignado n w' <-> asignado n w)) /\
  ObtenerEstadisticas r w' = Some (estadisticas_de r 0 0, w') /\
  (forall id, ObtenerEstado r id w'
              = Some (("", Some (error_no_encontrado r)), w')) /\
  ahora w' = ahora w /\ lecturas w' = lecturas w /\
  salida w' = salida w /\ traza w' = traza w.

(** Registering the backends [ns] one after the other, as [main] does. *)
Fixpoint AgregarNotificadores (sn : ServicioNotificaciones)
    (ns : list Notificador) : M ServicioNotificaciones :=
  match ns with
  | [] => ret sn
  | n :: ns' =>
      sn' <- AgregarNotificador sn n ;;
      AgregarNotificadores sn' ns'
  end.



(** A result with the history of its world erased: what is left is the
    value returned and everything the program itself can observe. *)
Definition sin_traza {A} (x : option (A * Mundo)) : option (A * Mundo) :=
  match x with
  | Some (a, w) => Some (a, con_traza [] w)
  | None => None
  end.

(** ** The capability list of [AnalizarCapacidadesNotificador] *)


(** ** Lemmas on strings *)


Lemma append_inj_r (a b c : string) : a +:+ b = a +:+ c -> b = c.
Proof. induction a; simpl; [auto | intros [=]; auto]. Qed.

Lemma id_inj (n : Notificador) (t u : Z) :
  prefijo_id n +:+ pretty t = prefijo_id n +:+ pretty u -> t = u.
Proof. intros H. apply append_inj_r in H. exact (inj pretty _ _ H). Qed.

(** ** The effect of one [EnviarNotificacion] *)

(** Unfolds the monad and the primitives of the world, leaving plain
    matches on heap lookups. *)
Ltac desplegar :=
  unfold EmailNotificador_LogInfo, EmailNotificador_LogError,
    EmailNotificador_Log, SMSNotificador_LogInfo, SMSNotificador_LogError,
    SMSNotificador_Log, actualizar_e_registros, actualizar_s_registros,
    leer_email, leer_sms, leer_slack, bind, ret, time_Now, time_Sleep,
    imprimir, anotar, errors_New.

(** Five clock readings and a sleep later, the first reading is in the
    past. *)
Lemma primera_lectura_pasada w (pausa fin : Z) :
  reloj_monotono w -> 0 < pausa ->
  let k := lecturas w in
  fin = ahora w + deriva w k + deriva w (S k) + deriva w (S (S k))
        + pausa + deriva w (S (S (S k))) + deriva w (S (S (S (S k)))) ->
  ahora w + deriva w k < fin.
Proof.
  intros Hm Hp k ->.
  pose proof (Hm (S k)). pose proof (Hm (S (S k))).
  pose proof (Hm (S (S (S k)))). pose proof (Hm (S (S (S (S k))))). lia.
Qed.

Lemma EmailNotificador_crear_registro_eq p e d m w :
  emails w !! p = Some e ->
  let t := ahora w + deriva w (lecturas w) in
  let ts := t + deriva w (S (lecturas w)) in
  let id := "email_" +:+ pretty t in
  let registro := {| ID := id; Tipo := Email; Destinatario := d; Mensaje := m;
                     Estado := Pendiente; Timestamp := ts; Intentos := 1;
                     Error := "" |} in
  EmailNotificador_crear_registro p d m w =
  Some (id, con_emails
              (<[p := con_e_registros (<[id := registro]> (e_registros e)) e]> (emails w))
              (con_reloj ts (S (S (lecturas w))) w)).
Proof.
  intros He. cbv zeta.
  unfold EmailNotificador_crear_registro. desplegar.
  simpl. rewrite He. reflexivity.
Qed.

Lemma EmailNotificador_entregar_eq p e d id r w :
  emails w !! p = Some e -> e_registros e !! id = Some r ->
  let t3 := ahora w + deriva w (lecturas w) in
  let t4 := t3 + 100 * Millisecond + deriva w (S (lecturas w)) in
  let t5 := t4 + deriva w (S (S (lecturas w))) in
  let falla := Z.rem t4 10 =? 0 in
  let r' := if falla
            then con_Error "Servidor SMTP no disponible" (con_Estado Fallida r)
            else con_Estado Enviada r in
  EmailNotificador_entregar p d id w =
  Some (if falla then Some "fallo al enviar email" else None,
        con_emails (<[p := con_e_registros (<[id := r']> (e_registros e)) e]> (emails w))
          (con_salida (salida w ++
              [LineaLog "EMAIL" t3 "INFO" ("Enviando email a " +:+ d);
               if falla
               then LineaLog "EMAIL" t5 "ERROR" "Servidor SMTP no disponible"
               else LineaLog "EMAIL" t5 "INFO" ("Email enviado exitosamente: " +:+ id)])
            (con_reloj t5 (S (S (S (lecturas w)))) w))).
Proof.
  intros He Hr. cbv zeta.
  unfold EmailNotificador_entregar. desplegar.
  simpl.
  destruct (Z.rem _ 10 =? 0) eqn:Hf; simpl; rewrite He; simpl.
  - rewrite lookup_insert_eq. simpl.
    f_equal. f_equal. unfold con_emails, con_salida, con_reloj; simpl.
    f_equal.
    + rewrite <- app_assoc. reflexivity.
    + rewrite insert_insert_eq. f_equal. unfold con_e_registros; simpl. f_equal.
      rewrite (alter_alt_Some _ _ _ _ Hr). rewrite alter_insert_eq. reflexivity.
  - f_equal. f_equal. unfold con_emails, con_salida, con_reloj; simpl.
    f_equal.
    + rewrite <- app_assoc. reflexivity.
    + f_equal. unfold con_e_registros; simpl. f_equal.
      rewrite (alter_alt_Some _ _ _ _ Hr). reflexivity.
Qed.

Lemma SMSNotificador_crear_registro_eq p s d m w :
  smss w !! p = Some s ->
  let t := ahora w + deriva w (lecturas w) in
  let ts := t + deriva w (S (lecturas w)) in
  let id := "sms_" +:+ pretty t in
  let registro := {| ID := id; Tipo := SMS; Destinatario := d; Mensaje := m;
                     Estado := Pendiente; Timestamp := ts; Intentos := 1;
                     Error := "" |} in
  SMSNotificador_crear_registro p d m w =
  Some (id, con_smss
              (<[p := con_s_registros (<[id := registro]> (s_registros s)) s]> (smss w))
              (con_reloj ts (S (S (lecturas w))) w)).
Proof.
  intros Hs. cbv zeta.
  unfold SMSNotificador_crear_registro. desplegar.
  simpl. rewrite Hs. reflexivity.
Qed.

Lemma SMSNotificador_entregar_eq p s d id r w :
  smss w !! p = Some s -> s_registros s !! id = Some r ->
  let t3 := ahora w + deriva w (lecturas w) in
  let t4 := t3 + 50 * Millisecond + deriva w (S (lecturas w)) in
  let t5 := t4 + deriva w (S (S (lecturas w))) in
  let falla := Z.rem t4 20 =? 0 in
  let r' := if falla
            then con_Error "Número no válido" (con_Estado Fallida r)
            else con_Estado Enviada r in
  SMSNotificador_entregar p d id w =
  Some (if falla then Some "fallo al enviar SMS" else None,
        con_smss (<[p := con_s_registros (<[id := r']> (s_registros s)) s]> (smss w))
          (con_salida (salida w ++
              [LineaLog "SMS" t3 "INFO"
                 ("Enviando SMS a " +:+ d +:+ " via " +:+ s_proveedor s);
               if falla
               then LineaLog "SMS" t5 "ERROR" "Número no válido"
               else LineaLog "SMS" t5 "INFO" ("SMS enviado exitosamente: " +:+ id)])
            (con_reloj t5 (S (S (S (lecturas w)))) w))).
Proof.
  intros Hs Hr. cbv zeta.
  unfold SMSNotificador_entregar. desplegar.
  simpl. rewrite Hs. simpl.
  destruct (Z.rem _ 20 =? 0) eqn:Hf; simpl; rewrite Hs; simpl.
  - rewrite lookup_insert_eq. simpl.
    f_equal. f_equal. unfold con_smss, con_salida, con_reloj; simpl.
    f_equal.
    + rewrite <- app_assoc. reflexivity.
    + rewrite insert_insert_eq. f_equal. unfold con_s_registros; simpl. f_equal.
      rewrite (alter_alt_Some _ _ _ _ Hr). rewrite alter_insert_eq. reflexivity.
  - f_equal. f_equal. unfold con_smss, con_salida, con_reloj; simpl.
    f_equal.
    + rewrite <- app_assoc. reflexivity.
    + f_equal. unfold con_s_registros; simpl. f_equal.
      rewrite (alter_alt_Some _ _ _ _ Hr). reflexivity.
Qed.

Lemma EmailNotificador_EnviarNotificacion_valido p e d m w :
  emails w !! p = Some e ->
  EmailNotificador_ValidarDestinatario d = None ->
  EmailNotificador_ValidarMensaje m = None ->
  let k := lecturas w in
  let id := "email_" +:+ pretty (ahora w + deriva w k) in
  exists err r w',
    EmailNotificador_EnviarNotificacion p d m w = Some (err, w') /\
    emails w' = <[p := con_e_registros (<[id := r]> (e_registros e)) e]> (emails w) /\
    smss w' = smss w /\ slacks w' = slacks w /\
    traza w' = traza w /\ deriva w' = deriva w /\
    ahora w' = ahora w + deriva w k + deriva w (S k) + deriva w (S (S k))
               + 100 * Millisecond + deriva w (S (S (S k)))
               + deriva w (S (S (S (S k)))) /\
    ID r = id /\ Intentos r = 1 /\
    (Estado r = Enviada /\ err = None \/
     Estado r = Fallida /\ err = Some "fallo al enviar email").
Proof.
  intros He Hd Hm k id.
  unfold EmailNotificador_EnviarNotificacion. rewrite Hd, Hm.
  unfold bind at 1. rewrite (EmailNotificador_crear_registro_eq p e d m w He).
  fold k id.
  set (registro := {| ID := id; Estado := Pendiente |}).
  set (e1 := con_e_registros (<[id := registro]> (e_registros e)) e).
  set (w1 := con_emails _ _).
  assert (He1 : emails w1 !! p = Some e1) by (subst w1; simpl; apply lookup_insert_eq).
  assert (Hr1 : e_registros e1 !! id = Some registro)
    by (subst e1; simpl; apply lookup_insert_eq).
  rewrite (EmailNotificador_entregar_eq p e1 d id registro w1 He1 Hr1).
  cbv zeta. simpl lecturas. simpl ahora. simpl deriva. fold k.
  set (falla := Z.rem _ 10 =? 0).
  exists (if falla then Some "fallo al enviar email" else None).
  exists (if falla
          then con_Error "Servidor SMTP no disponible" (con_Estado Fallida registro)
          else con_Estado Enviada registro).
  eexists. split; [reflexivity|].
  simpl. rewrite !insert_insert_eq.
  repeat split; try reflexivity; try (destruct falla; reflexivity).
  destruct falla; simpl; auto.
Qed.

Lemma SMSNotificador_EnviarNotificacion_valido p s d m w :
  smss w !! p = Some s ->
  SMSNotificador_ValidarDestinatario d = None ->
  SMSNotificador_ValidarMensaje m = None ->
  let k := lecturas w in
  let id := "sms_" +:+ pretty (ahora w + deriva w k) in
  exists err r w',
    SMSNotificador_EnviarNotificacion p d m w = Some (err, w') /\
    smss w' = <[p := con_s_registros (<[id := r]> (s_registros s)) s]> (smss w) /\
    emails w' = emails w /\ slacks w' = slacks w /\
    traza w' = traza w /\ deriva w' = deriva w /\
    ahora w' = ahora w + deriva w k + deriva w (S k) + deriva w (S (S k))
               + 50 * Millisecond + deriva w (S (S (S k)))
               + deriva w (S (S (S (S k)))) /\
    ID r = id /\ Intentos r = 1 /\
    (Estado r = Enviada /\ err = None \/
     Estado r = Fallida /\ err = Some "fallo al enviar SMS").
Proof.
  intros Hs Hd Hm k id.
  unfold SMSNotificador_EnviarNotificacion. rewrite Hd, Hm.
  unfold bind at 1. rewrite (SMSNotificador_crear_registro_eq p s d m w Hs).
  fold k id.
  set (registro := {| ID := id; Estado := Pendiente |}).
  set (s1 := con_s_registros (<[id := registro]> (s_registros s)) s).
  set (w1 := con_smss _ _).
  assert (Hs1 : smss w1 !! p = Some s1) by (subst w1; simpl; apply lookup_insert_eq).
  assert (Hr1 : s_registros s1 !! id = Some registro)
    by (subst s1; simpl; apply lookup_insert_eq).
  rewrite (SMSNotificador_entregar_eq p s1 d id registro w1 Hs1 Hr1).
  cbv zeta. simpl lecturas. simpl ahora. simpl deriva. fold k.
  set (falla := Z.rem _ 20 =? 0).
  exists (if falla then Some "fallo al enviar SMS" else None).
  exists (if falla
          then con_Error "Número no válido" (con_Estado Fallida registro)
          else con_Estado Enviada registro).
  eexists. split; [reflexivity|].
  simpl. rewrite !insert_insert_eq.
  repeat split; try reflexivity; try (destruct falla; reflexivity).
  destruct falla; simpl; auto.
Qed.

Lemma EnviarNotificacion_rechazo n d m w err :
  validacion_propia n d m = Some err ->
  EnviarNotificacion n d m w = Some (Some err, w).
Proof.
  destruct n as [p|p|p]; simpl; unfold validacion_propia; simpl;
    [unfold EmailNotificador_EnviarNotificacion
    |unfold SMSNotificador_EnviarNotificacion|discriminate];
    intros H;
    repeat match type of H with
           | match ?x with _ => _ end = _ => destruct x eqn:?
           end; unfold ret; try rewrite H; congruence.
Qed.

(** One call of [EnviarNotificacion] on an allocated backend returns, and
    touches nothing but the clock, the output and the backend's own store. *)
Lemma EnviarNotificacion_efecto n d m w :
  asignado n w ->
  exists err w',
    EnviarNotificacion n d m w = Some (err, w') /\
    traza w' = traza w /\ deriva w' = deriva w /\
    (reloj_monotono w -> ahora w <= ahora w') /\
    (forall n', asignado n' w' <-> asignado n' w) /\
    (forall n', n' <> n -> almacen n' w' = almacen n' w) /\
    match validacion_propia n d m with
    | Some e => err = Some e /\ w' = w
    | None =>
        match almacen n w with
        | None => err = None /\ almacen n w' = None
        | Some rs =>
            exists r,
              almacen n w' = Some (<[id_siguiente n w := r]> rs) /\
              ID r = id_siguiente n w /\ Intentos r = 1 /\
              (Estado r = Enviada /\ err = None \/
               Estado r = Fallida /\ is_Some err) /\
              (reloj_monotono w -> ahora w + deriva w (lecturas w) < ahora w')
        end
    end.
Proof.
  intros Ha.
  destruct (validacion_propia n d m) as [e|] eqn:Hv.
  { exists (Some e), w. rewrite (EnviarNotificacion_rechazo _ _ _ _ _ Hv).
    repeat split; auto; lia. }
  destruct n as [p|p|p]; simpl in Ha; destruct Ha as [o Ho].
  - unfold validacion_propia in Hv. simpl in Hv.
    destruct (EmailNotificador_ValidarDestinatario d) eqn:Hd; [discriminate|].
    destruct (EmailNotificador_EnviarNotificacion_valido p o d m w Ho Hd Hv)
      as (err & r & w' & Hrun & Hem & Hsm & Hsl & Htr & Hde & Hah & Hid & Hin & Hst).
    exists err, w'. simpl. rewrite Hrun, Ho. simpl.
    split; [reflexivity|]. split; [exact Htr|]. split; [exact Hde|].
    assert (Hmono : reloj_monotono w -> ahora w + deriva w (lecturas w) < ahora w').
    { intros Hm. eapply primera_lectura_pasada; [exact Hm| |exact Hah].
      reflexivity. }
    split; [intros Hm; specialize (Hmono Hm); specialize (Hm (lecturas w)); lia|].
    split.
    { intros [q|q|q]; simpl; rewrite ?Hem, ?Hsm, ?Hsl; [|tauto|tauto].
      destruct (decide (p = q)) as [->|Hne].
      - rewrite lookup_insert_eq, Ho. split; eauto.
      - rewrite lookup_insert_ne by done. tauto. }
    split.
    { intros [q|q|q] Hne; simpl; rewrite ?Hem, ?Hsm, ?Hsl; try reflexivity.
      rewrite lookup_insert_ne by congruence. reflexivity. }
    exists r. rewrite Hem, lookup_insert_eq. simpl.
    split; [reflexivity|]. split; [exact Hid|]. split; [exact Hin|].
    split; [|exact Hmono].
    destruct Hst as [[? ->]|[? ->]]; eauto.
  - unfold validacion_propia in Hv. simpl in Hv.
    destruct (SMSNotificador_ValidarDestinatario d) eqn:Hd; [discriminate|].
    destruct (SMSNotificador_EnviarNotificacion_valido p o d m w Ho Hd Hv)
      as (err & r & w' & Hrun & Hsm & Hem & Hsl & Htr & Hde & Hah & Hid & Hin & Hst).
    exists err, w'. simpl. rewrite Hrun, Ho. simpl.
    split; [reflexivity|]. split; [exact Htr|]. split; [exact Hde|].
    assert (Hmono : reloj_monotono w -> ahora w + deriva w (lecturas w) < ahora w').
    { intros Hm. eapply primera_lectura_pasada; [exact Hm| |exact Hah].
      reflexivity. }
    split; [intros Hm; specialize (Hmono Hm); specialize (Hm (lecturas w)); lia|].
    split.
    { intros [q|q|q]; simpl; rewrite ?Hem, ?Hsm, ?Hsl; [tauto| |tauto].
      destruct (decide (p = q)) as [->|Hne].
      - rewrite lookup_insert_eq, Ho. split; eauto.
      - rewrite lookup_insert_ne by done. tauto. }
    split.
    { intros [q|q|q] Hne; simpl; rewrite ?Hem, ?Hsm, ?Hsl; try reflexivity.
      rewrite lookup_insert_ne by congruence. reflexivity. }
    exists r. rewrite Hsm, lookup_insert_eq. simpl.
    split; [reflexivity|]. split; [exact Hid|]. split; [exact Hin|].
    split; [|exact Hmono].
    destruct Hst as [[? ->]|[? ->]]; eauto.
  - simpl. unfold SlackNotificador_EnviarNotificacion. desplegar.
    rewrite Ho. simpl.
    eexists _, _. split; [reflexivity|]. simpl.
    repeat split; auto; unfold Millisecond; try lia; tauto.
Qed.

(** ** Coherence: ids are fresh, stores only grow *)

Lemma almacenes_crecen_ext w1 w1' w2 w2' :
  (forall n, almacen n w1' = almacen n w1) ->
  (forall n, almacen n w2' = almacen n w2) ->
  almacenes_crecen w1 w2 -> almacenes_crecen w1' w2'.
Proof.
  intros H1 H2 [Hk Hn]. split.
  - intros n rs. rewrite H1, H2. apply Hk.
  - intros n rs' id reg. rewrite H1, H2. apply Hn.
Qed.

Lemma almacenes_crecen_refl w : almacenes_crecen w w.
Proof.
  split.
  - intros n rs H. exists rs. split; [exact H|reflexivity].
  - intros n rs id reg H1 H2. left. eauto.
Qed.

Lemma almacenes_crecen_trans w1 w2 w3 :
  almacenes_crecen w1 w2 -> almacenes_crecen w2 w3 -> almacenes_crecen w1 w3.
Proof.
  intros [Hk12 Hn12] [Hk23 Hn23]. split.
  - intros n rs Hrs.
    destruct (Hk12 n rs Hrs) as (rs2 & Hrs2 & Hsub2).
    destruct (Hk23 n rs2 Hrs2) as (rs3 & Hrs3 & Hsub3).
    exists rs3. split; [exact Hrs3|etrans; eassumption].
  - intros n rs3 id reg Hrs3 Hreg.
    destruct (Hn23 n rs3 id reg Hrs3 Hreg) as [(rs2 & Hrs2 & Hreg2)|Hst];
      [|right; exact Hst].
    apply (Hn12 n rs2 id reg Hrs2 Hreg2).
Qed.

Lemma almacenes_iguales_crecen w w' :
  (forall n, almacen n w' = almacen n w) -> almacenes_crecen w w'.
Proof.
  intros H.
  apply (almacenes_crecen_ext w w w w'); auto using almacenes_crecen_refl.
Qed.

Lemma id_siguiente_nuevo n w rs :
  coherente w -> almacen n w = Some rs -> rs !! id_siguiente n w = None.
Proof.
  intros [Hm Hids] Hrs.
  destruct (rs !! id_siguiente n w) as [r|] eqn:Hr; [|reflexivity].
  destruct (Hids n rs _ Hrs (mk_is_Some _ _ Hr)) as (t & Ht & Hlt).
  apply id_inj in Ht. specialize (Hm (lecturas w)). lia.
Qed.

Lemma coherente_avanza w w' :
  coherente w -> deriva w' = deriva w -> ahora w <= ahora w' ->
  (forall n, almacen n w' = almacen n w) -> coherente w'.
Proof.
  intros [Hm Hids] Hde Hah Hal. split.
  - intros k. rewrite Hde. apply Hm.
  - intros n rs id Hrs Hid. rewrite Hal in Hrs.
    destruct (Hids n rs id Hrs Hid) as (t & ? & ?). exists t. split; [done|lia].
Qed.

Lemma EnviarNotificacion_coherente n d m w err w' :
  coherente w -> asignado n w ->
  EnviarNotificacion n d m w = Some (err, w') ->
  coherente w' /\ almacenes_crecen w w'.
Proof.
  intros Hco Ha Hrun.
  destruct (EnviarNotificacion_efecto n d m w Ha)
    as (err0 & w0 & Hrun0 & _ & Hde & Hah & _ & Haj & Hpr).
  rewrite Hrun in Hrun0. injection Hrun0 as <- <-.
  pose proof Hco as [Hm Hids]. specialize (Hah Hm).
  destruct (validacion_propia n d m) as [e|].
  { destruct Hpr as [_ ->]. split; [exact Hco|apply almacenes_crecen_refl]. }
  destruct (almacen n w) as [rs|] eqn:Hrs.
  - destruct Hpr as (r & Hrs' & Hid & _ & Hst & Hlt). specialize (Hlt Hm).
    pose proof (id_siguiente_nuevo n w rs Hco Hrs) as Hfresh.
    split; [split|].
    + intros k. rewrite Hde. apply Hm.
    + intros n0 rs0 id Hrs0 His.
      destruct (decide (n0 = n)) as [->|Hne].
      * rewrite Hrs' in Hrs0. injection Hrs0 as <-.
        destruct (decide (id = id_siguiente n w)) as [->|Hni].
        -- eexists. split; [reflexivity|exact Hlt].
        -- rewrite lookup_insert_ne in His by done.
           destruct (Hids n rs id Hrs His) as (t & ? & ?).
           exists t. split; [done|lia].
      * rewrite (Haj n0 Hne) in Hrs0.
        destruct (Hids n0 rs0 id Hrs0 His) as (t & ? & ?).
        exists t. split; [done|lia].
    + split.
      * intros n0 rs0 Hrs0.
        destruct (decide (n0 = n)) as [->|Hne].
        -- rewrite Hrs in Hrs0. injection Hrs0 as <-.
           eexists. split; [exact Hrs'|]. by apply insert_subseteq.
        -- exists rs0. rewrite (Haj n0 Hne). split; [exact Hrs0|reflexivity].
      * intros n0 rs0 id reg Hrs0 Hreg.
        destruct (decide (n0 = n)) as [->|Hne].
        -- rewrite Hrs' in Hrs0. injection Hrs0 as <-.
           destruct (decide (id = id_siguiente n w)) as [->|Hni].
           ++ rewrite lookup_insert_eq in Hreg. injection Hreg as <-.
              right. destruct Hst as [[? _]|[? _]]; auto.
           ++ rewrite lookup_insert_ne in Hreg by done. left. eauto.
        -- rewrite (Haj n0 Hne) in Hrs0. left. eauto.
  - destruct Hpr as [_ Hnone]. split.
    + apply (coherente_avanza w w' Hco Hde Hah).
      intros n0. destruct (decide (n0 = n)) as [->|Hne]; [congruence|auto].
    + apply almacenes_iguales_crecen.
      intros n0. destruct (decide (n0 = n)) as [->|Hne]; [congruence|auto].
Qed.

(** ** Frame lemmas *)

Lemma sigue_refl w : sigue w w.
Proof. repeat split; auto; lia. Qed.

Lemma sigue_trans w1 w2 w3 : sigue w1 w2 -> sigue w2 w3 -> sigue w1 w3.
Proof.
  intros (Hd1 & Ha1 & Hs1) (Hd2 & Ha2 & Hs2). split; [congruence|]. split.
  - intros Hm. specialize (Ha1 Hm).
    assert (reloj_monotono w2) by (intros k; rewrite Hd1; apply Hm).
    specialize (Ha2 H). lia.
  - intros n. rewrite Hs2. apply Hs1.
Qed.

Create HintDb marco discriminated.
#[local] Hint Resolve sigue_refl almacenes_crecen_refl : marco.

Lemma almacen_con_traza n t w : almacen n (con_traza t w) = almacen n w.
Proof. destruct n; reflexivity. Qed.

Lemma asignado_con_traza n t w : asignado n (con_traza t w) <-> asignado n w.
Proof. destruct n; reflexivity. Qed.

Lemma envios_app t1 t2 : envios (t1 ++ t2) = envios t1 ++ envios t2.
Proof. apply List.filter_app. Qed.

(** Logging through the shared logger returns and leaves every store as it
    was; it adds no [EnviarNotificacion] to the history. *)
Lemma Log_efecto l nivel msg w :
  exists w', Log l nivel msg w = Some (tt, w') /\
    traza w' = traza w /\ sigue w w' /\
    (forall n, almacen n w' = almacen n w) /\
    ahora w' = ahora w + deriva w (lecturas w).
Proof.
  destruct l; simpl; unfold EmailNotificador_Log, SMSNotificador_Log,
    bind, time_Now, imprimir; simpl;
    (eexists; split; [reflexivity|]); simpl;
    (split; [reflexivity|]);
    (split; [split; [reflexivity|]; split;
             [intros Hm; specialize (Hm (lecturas w)); simpl; lia
             |intros [?|?|?]; reflexivity]|]);
    (split; [intros [?|?|?]; reflexivity|reflexivity]).
Qed.

Lemma sn_LogInfo_efecto lg msg w :
  exists w', sn_LogInfo lg msg w = Some (tt, w') /\
    envios (traza w') = envios (traza w) /\ sigue w w' /\
    (forall n, almacen n w' = almacen n w).
Proof.
  destruct lg as [l|]; simpl.
  - destruct (Log_efecto l "INFO" msg w) as (w1 & Hrun & Htr & Hsi & Hal & _).
    unfold bind. replace (LogInfo l msg) with (Log l "INFO" msg)
      by (destruct l; reflexivity).
    rewrite Hrun. unfold anotar. eexists. split; [reflexivity|]. simpl.
    split; [rewrite envios_app, Htr; simpl; apply app_nil_r|].
    split.
    + destruct Hsi as (Hd & Hm & Hs). split; [exact Hd|]. split; [exact Hm|].
      intros n. rewrite asignado_con_traza. apply Hs.
    + intros n. rewrite almacen_con_traza. apply Hal.
  - exists w. repeat split; auto; lia.
Qed.

Lemma sn_LogError_efecto lg msg w :
  exists w', sn_LogError lg msg w = Some (tt, w') /\
    envios (traza w') = envios (traza w) /\ sigue w w' /\
    (forall n, almacen n w' = almacen n w).
Proof.
  destruct lg as [l|]; simpl.
  - destruct (Log_efecto l "ERROR" msg w) as (w1 & Hrun & Htr & Hsi & Hal & _).
    unfold bind. replace (LogError l (Some msg)) with (Log l "ERROR" msg)
      by (destruct l; reflexivity).
    rewrite Hrun. unfold anotar. eexists. split; [reflexivity|]. simpl.
    split; [rewrite envios_app, Htr; simpl; apply app_nil_r|].
    split.
    + destruct Hsi as (Hd & Hm & Hs). split; [exact Hd|]. split; [exact Hm|].
      intros n. rewrite asignado_con_traza. apply Hs.
    + intros n. rewrite almacen_con_traza. apply Hal.
  - exists w. repeat split; auto; lia.
Qed.

Lemma sigue_coherente w w' :
  sigue w w' -> (forall n, almacen n w' = almacen n w) ->
  coherente w -> coherente w' /\ almacenes_crecen w w'.
Proof.
  intros (Hde & Hah & _) Hal Hco. split.
  - apply (coherente_avanza w w' Hco Hde); [apply Hah, Hco|exact Hal].
  - apply almacenes_iguales_crecen, Hal.
Qed.

(** ** The dispatcher's call of [EnviarNotificacion] *)

Lemma sn_EnviarNotificacion_efecto n d m w :
  asignado n w ->
  exists err w',
    sn_EnviarNotificacion n d m w = Some (err, w') /\
    traza w' = traza w ++ [LlEnviarNotificacion n d m err] /\
    sigue w w' /\
    (forall n', (n' = n -> is_Some (validacion_propia n d m)) ->
       almacen n' w' = almacen n' w) /\
    (forall e, validacion_propia n d m = Some e -> err = Some e) /\
    (coherente w -> coherente w' /\ almacenes_crecen w w') /\
    (exists w0, EnviarNotificacion n d m w = Some (err, w0)).
Proof.
  intros Ha.
  destruct (EnviarNotificacion_efecto n d m w Ha)
    as (err & w1 & Hrun & Htr & Hde & Hah & Has & Haj & Hpr).
  exists err, (con_traza (traza w1 ++ [LlEnviarNotificacion n d m err]) w1).
  split; [unfold sn_EnviarNotificacion, bind, anotar, ret; rewrite Hrun; reflexivity|].
  split; [simpl; rewrite Htr; reflexivity|].
  split; [split; [exact Hde|]; split; [exact Hah|];
          intros n'; rewrite asignado_con_traza; apply Has|].
  split.
  { intros n' Hn'. rewrite almacen_con_traza.
    destruct (decide (n' = n)) as [->|Hne]; [|auto].
    destruct (Hn' eq_refl) as [e He]. rewrite He in Hpr.
    destruct Hpr as [_ ->]. reflexivity. }
  split.
  { intros e He. rewrite He in Hpr. tauto. }
  split; [|eauto].
  intros Hco.
  destruct (EnviarNotificacion_coherente n d m w err w1 Hco Ha Hrun) as [Hco1 Hcr].
  split.
  - apply (coherente_avanza w1 _ Hco1); [reflexivity|simpl; lia|].
    intros n'. apply almacen_con_traza.
  - apply (almacenes_crecen_ext w w w1 _); auto using almacen_con_traza.
Qed.

Lemma anotar_resultado_efecto lg (tipo : string) (err : error) w :
  exists w',
    match err with
    | Some msg => sn_LogError lg (tipo +:+ " falló: " +:+ msg)
    | None => sn_LogInfo lg (tipo +:+ " éxito")
    end w = Some (tt, w') /\
    envios (traza w') = envios (traza w) /\ sigue w w' /\
    (forall n, almacen n w' = almacen n w).
Proof.
  destruct err; [apply sn_LogError_efecto|apply sn_LogInfo_efecto].
Qed.

Lemma Forall_asignado_sigue ns w w' :
  sigue w w' -> Forall (fun n => asignado n w) ns ->
  Forall (fun n => asignado n w') ns.
Proof.
  intros (_ & _ & Hs) H. eapply Forall_impl; [exact H|].
  intros n Hn. apply Hs, Hn.
Qed.

Lemma EnviarATodos_bucle_efecto lg d m ns :
  forall res w,
  Forall (fun n => asignado n w) ns ->
  exists errs w',
    EnviarATodos_bucle lg ns d m res w = Some (recoger ns errs res, w') /\
    length errs = length ns /\
    envios (traza w') =
      envios (traza w) ++ zip_with (fun n e => LlEnviarNotificacion n d m e) ns errs /\
    sigue w w' /\
    Forall2 (resultado_de_envio d m) ns errs /\
    (forall n0, (n0 ∈ ns -> is_Some (validacion_propia n0 d m)) ->
       almacen n0 w' = almacen n0 w) /\
    (coherente w -> coherente w' /\ almacenes_crecen w w').
Proof.
  induction ns as [|n ns IH]; intros res w Hall.
  - exists [], w. simpl. rewrite app_nil_r.
    split; [reflexivity|]. split; [reflexivity|]. split; [reflexivity|].
    split; [auto with marco|]. split; [constructor|]. split; [reflexivity|].
    intros Hco. split; auto with marco.
  - inversion Hall as [|? ? Ha Hall']; subst.
    destruct (sn_EnviarNotificacion_efecto n d m w Ha)
      as (err & w1 & Hrun1 & Htr1 & Hsi1 & Hal1 & Hv1 & Hco1 & Hw0).
    destruct (anotar_resultado_efecto lg (nombre_tipo n) err w1)
      as (w2 & Hrun2 & Htr2 & Hsi2 & Hal2).
    assert (Hsi12 : sigue w w2) by (eapply sigue_trans; eassumption).
    destruct (IH (<[nombre_tipo n := err]> res) w2
                (Forall_asignado_sigue _ _ _ Hsi12 Hall'))
      as (errs & w3 & Hrun3 & Hlen & Htr3 & Hsi3 & Hres & Hal3 & Hco3).
    exists (err :: errs), w3.
    split.
    { simpl. unfold bind at 1. rewrite Hrun1. unfold bind at 1.
      rewrite Hrun2. exact Hrun3. }
    split; [simpl; congruence|].
    split.
    { rewrite Htr3, Htr2, Htr1, envios_app. simpl.
      rewrite <- app_assoc. reflexivity. }
    split; [eapply sigue_trans; eassumption|].
    split.
    { constructor; [|exact Hres]. split; [exact Hv1|].
      destruct Hw0 as [w0 Hw0]. eauto. }
    split.
    { intros n0 Hn0. rewrite Hal3, Hal2, Hal1; [reflexivity| |].
      - intros ->. apply Hn0. left.
      - intros Hin. apply Hn0. right. exact Hin. }
    intros Hco. destruct (Hco1 Hco) as [Hc1 Hg1].
    destruct (sigue_coherente w1 w2 Hsi2 Hal2 Hc1) as [Hc2 Hg2].
    destruct (Hco3 Hc2) as [Hc3 Hg3].
    split; [exact Hc3|].
    eapply almacenes_crecen_trans; [exact Hg1|].
    eapply almacenes_crecen_trans; eassumption.
Qed.

(** ** The results map *)

Section ResultadosPorTipo.

Implicit Types (ns : list Notificador) (errs : list error).
Implicit Types (res : gmap string error) (k : string).


Lemma recoger_ajeno ns k :
  forall errs res, (forall n, n ∈ ns -> nombre_tipo n <> k) ->
    recoger ns errs res !! k = res !! k.
Proof.
  induction ns as [|n ns IH]; intros [|e errs] res Hk; simpl; try reflexivity.
  rewrite IH by (intros n' Hn'; apply Hk; right; exact Hn').
  apply lookup_insert_ne. apply Hk. left.
Qed.

Lemma recoger_ultimo ns :
  forall errs res j n e,
    ns !! j = Some n -> errs !! j = Some e -> ultimo_de_su_tipo ns j ->
    recoger ns errs res !! nombre_tipo n = Some e.
Proof.
  induction ns as [|n0 ns IH]; intros [|e0 errs] res [|j] n e Hn He Hult;
    simpl in *; try discriminate.
  - injection Hn as ->. injection He as ->.
    rewrite recoger_ajeno; [apply lookup_insert_eq|].
    intros n' Hn'. apply list_elem_of_lookup in Hn' as [j' Hj'].
    apply (Hult n (S j') n'); [reflexivity|lia|exact Hj'].
  - apply (IH errs _ j n e Hn He).
    intros n1 j' n' H1 Hlt H2.
    apply (Hult n1 (S j') n'); [exact H1|lia|exact H2].
Qed.





Lemma existe_ultimo k ns :
  (exists n, n ∈ ns /\ nombre_tipo n = k) ->
  exists j n', ns !! j = Some n' /\ nombre_tipo n' = k /\ ultimo_de_su_tipo ns j.
Proof.
  induction ns as [|a ns IH]; intros (n & Hin & Hk); [inversion Hin|].
  destruct (decide (Exists (fun x => nombre_tipo x = k) ns)) as [Hex|Hnex].
  - apply Exists_exists in Hex as (x & Hx & Htx).
    destruct IH as (j & n' & Hj & Ht & Hult); [eauto|].
    exists (S j), n'. split; [exact Hj|]. split; [exact Ht|].
    intros n1 [|j'] n2 H1 Hlt H2; [lia|]. simpl in *.
    apply (Hult n1 j' n2 H1); [lia|exact H2].
  - assert (Ha : nombre_tipo a = k).
    { apply elem_of_cons in Hin as [->|Hin]; [exact Hk|].
      exfalso. apply Hnex, Exists_exists. eauto. }
    exists 0%nat, a. split; [reflexivity|]. split; [exact Ha|].
    intros n1 [|j'] n2 H1 Hlt H2; [lia|]. simpl in *. injection H1 as <-.
    intros Heq. apply Hnex, Exists_exists. exists n2.
    split; [eapply list_elem_of_lookup_2; exact H2|congruence].
Qed.

End ResultadosPorTipo.

Lemma validacion_propia_tipo n n' d m :
  nombre_tipo n = nombre_tipo n' ->
  validacion_propia n d m = validacion_propia n' d m.
Proof. destruct n, n'; simpl; intros H; try discriminate; reflexivity. Qed.

(** ** [EnviarATodos] *)

Lemma EnviarATodos_efecto sn d m w :
  Forall (fun n => asignado n w) (notificadores sn) ->
  exists errs w',
    EnviarATodos sn d m w = Some (recoger (notificadores sn) errs ∅, w') /\
    length errs = length (notificadores sn) /\
    envios (traza w') =
      envios (traza w) ++
      zip_with (fun n e => LlEnviarNotificacion n d m e) (notificadores sn) errs /\
    sigue w w' /\
    Forall2 (resultado_de_envio d m) (notificadores sn) errs /\
    (forall n0, (n0 ∈ notificadores sn -> is_Some (validacion_propia n0 d m)) ->
       almacen n0 w' = almacen n0 w) /\
    (coherente w -> coherente w' /\ almacenes_crecen w w').
Proof.
  intros Hall. unfold EnviarATodos.
  destruct (sn_LogInfo_efecto (logger sn)
              ("Enviando a " +:+ pretty (length (notificadores sn)) +:+ " notificadores") w)
    as (w1 & Hrun1 & Htr1 & Hsi1 & Hal1).
  destruct (EnviarATodos_bucle_efecto (logger sn) d m (notificadores sn) ∅ w1
              (Forall_asignado_sigue _ _ _ Hsi1 Hall))
    as (errs & w2 & Hrun2 & Hlen & Htr2 & Hsi2 & Hres & Hal2 & Hco2).
  exists errs, w2.
  split; [unfold bind; rewrite Hrun1; exact Hrun2|].
  split; [exact Hlen|]. split; [rewrite Htr2, Htr1; reflexivity|].
  split; [eapply sigue_trans; eassumption|]. split; [exact Hres|].
  split; [intros n0 Hn0; rewrite (Hal2 n0 Hn0); apply Hal1|].
  intros Hco. destruct (sigue_coherente w w1 Hsi1 Hal1 Hco) as [Hc1 Hg1].
  destruct (Hco2 Hc1) as [Hc2 Hg2].
  split; [exact Hc2|eapply almacenes_crecen_trans; eassumption].
Qed.


Lemma asignados_servicio_ej :
  Forall (fun n => asignado n mundo_ej) (notificadores servicio_ej).
Proof. repeat constructor; simpl; vm_compute; eauto. Qed.







(** C9.  [EnviarNotificacion] of the email and SMS backends checks the
    destination and then the message before it creates a record
    ([validacion_propia]): on input that fails, the call returns that
    validation error and the world is what it was.  So [EnviarATodos], which
    validates nothing itself, reports the validation error under the
    backend's type name, and the backend's Record Store is the same after the
    call. *)
Theorem EnviarATodos_validacion_interna sn d m w n err :
  Forall (fun n0 => asignado n0 w) (notificadores sn) ->
  n ∈ notificadores sn ->
  validacion_propia n d m = Some err ->
  (forall w0, EnviarNotificacion n d m w0 = Some (Some err, w0)) /\
  exists res w',
    EnviarATodos sn d m w = Some (res, w') /\
    res !! nombre_tipo n = Some (Some err) /\
    almacen n w' = almacen n w.
Proof.
  intros Hall Hin Hv.
  split; [intros w0; apply EnviarNotificacion_rechazo, Hv|].
  destruct (EnviarATodos_efecto sn d m w Hall)
    as (errs & w' & Hrun & Hlen & _ & _ & Hres & Hal & _).
  exists (recoger (notificadores sn) errs ∅), w'.
  split; [exact Hrun|]. split; [|apply Hal; intros _; rewrite Hv; eauto].
  destruct (existe_ultimo (nombre_tipo n) (notificadores sn))
    as (j & n' & Hj & Ht & Hult); [eauto|].
  destruct (lookup_lt_is_Some_2 errs j) as [e He];
    [rewrite Hlen; eapply lookup_lt_Some; exact Hj|].
  rewrite <- Ht.
  rewrite (recoger_ultimo _ errs ∅ j n' e Hj He Hult). f_equal.
  destruct (Forall2_lookup_lr _ _ _ _ _ _ Hres Hj He) as [Hval _].
  apply Hval. rewrite (validacion_propia_tipo n' n d m Ht). exact Hv.
Qed.

Lemma EnviarATodos_validacion_interna_witness :
  (Forall (fun n0 => asignado n0 mundo_ej) (notificadores servicio_ej) /\
   NSMS 0 ∈ notificadores servicio_ej /\
   validacion_propia (NSMS 0) "admin@empresa.com" "Sistema iniciado"
     = Some "número debe empezar con + o 0") /\
  (forall w0, EnviarNotificacion (NSMS 0) "admin@empresa.com" "Sistema iniciado" w0
              = Some (Some "número debe empezar con + o 0", w0)) /\
  exists res w',
    EnviarATodos servicio_ej "admin@empresa.com" "Sistema iniciado" mundo_ej
      = Some (res, w') /\
    res !! nombre_tipo (NSMS 0) = Some (Some "número debe empezar con + o 0") /\
    almacen (NSMS 0) w' = almacen (NSMS 0) mundo_ej.
Proof.
  assert (Hin : NSMS 0 ∈ notificadores servicio_ej) by (right; left).
  split.
  - split; [exact asignados_servicio_ej|]. split; [exact Hin|reflexivity].
  - apply (EnviarATodos_validacion_interna servicio_ej _ _ mundo_ej (NSMS 0)).
    + exact asignados_servicio_ej.
    + exact Hin.
    + reflexivity.
Defined.

(** ** [EnviarConValidacion] *)

Lemma con_traza_sigue t w : sigue w (con_traza t w).
Proof.
  split; [reflexivity|]. split; [simpl; lia|].
  intros n. apply asignado_con_traza.
Qed.

Lemma con_traza_coherente t w :
  coherente w -> coherente (con_traza t w) /\ almacenes_crecen w (con_traza t w).
Proof.
  apply sigue_coherente; [apply con_traza_sigue|].
  intros n. apply almacen_con_traza.
Qed.

Lemma EnviarConValidacion_bucle_efecto d m ns :
  forall res w,
  Forall (fun n => asignado n w) ns ->
  exists outs w',
    EnviarConValidacion_bucle ns d m res w = Some (recoger ns outs res, w') /\
    length outs = length ns /\
    traza w' = traza w ++ concat (zip_with (llamadas_con_validacion d m) ns outs) /\
    sigue w w' /\
    Forall2 (resultado_validado d m) ns outs /\
    (forall n0, (n0 ∈ ns -> is_Some (rechazo_validacion n0 d m)) ->
       almacen n0 w' = almacen n0 w) /\
    (coherente w -> coherente w' /\ almacenes_crecen w w').
Proof.
  induction ns as [|n ns IH]; intros res w Hall.
  { exists [], w. simpl. rewrite app_nil_r.
    split; [reflexivity|]. split; [reflexivity|]. split; [reflexivity|].
    split; [auto with marco|]. split; [constructor|]. split; [reflexivity|].
    intros Hco. split; auto with marco. }
  inversion Hall as [|? ? Ha Hall']; subst.
  (* the round ends in world [w1] with outcome [e], after the calls [ll] *)
  assert (Hround : exists e w1,
    (forall k : gmap string error -> M (gmap string error),
       (forall r, k r = EnviarConValidacion_bucle ns d m r) ->
       EnviarConValidacion_bucle (n :: ns) d m res w
       = k (<[nombre_tipo n := e]> res) w1) /\
    traza w1 = traza w ++ llamadas_con_validacion d m n e /\
    sigue w w1 /\ resultado_validado d m n e /\
    (forall n0, (n0 = n -> is_Some (rechazo_validacion n d m)) ->
       almacen n0 w1 = almacen n0 w) /\
    (coherente w -> coherente w1 /\ almacenes_crecen w w1)).
  { unfold resultado_validado, rechazo_validacion, llamadas_con_validacion.
    simpl EnviarConValidacion_bucle.
    destruct (como_ValidadorMensaje n) as [v|] eqn:Hv.
    - unfold sn_ValidarMensaje, sn_ValidarDestinatario, anotar, bind, ret.
      destruct (ValidarMensaje v m) as [msg|] eqn:Hm.
      + eexists _, _. split; [intros k Hk; rewrite Hk; reflexivity|].
        split; [reflexivity|]. split; [apply con_traza_sigue|].
        split; [reflexivity|].
        split; [intros; apply almacen_con_traza|apply con_traza_coherente].
      + destruct (ValidarDestinatario v d) as [msg|] eqn:Hd.
        * eexists _, _. split; [intros k Hk; rewrite Hk; reflexivity|].
          split; [simpl; rewrite <- app_assoc; reflexivity|].
          split; [eapply sigue_trans; apply con_traza_sigue|].
          split; [reflexivity|].
          split; [intros; rewrite !almacen_con_traza; reflexivity|].
          intros Hco. split.
          -- apply con_traza_coherente, con_traza_coherente, Hco.
          -- apply almacenes_iguales_crecen. intros n0.
             rewrite !almacen_con_traza. reflexivity.
        * set (w2 := con_traza _ (con_traza _ w)).
          assert (Hs2 : sigue w w2)
            by (eapply sigue_trans; apply con_traza_sigue).
          assert (Ha2 : asignado n w2) by (apply Hs2, Ha).
          destruct (sn_EnviarNotificacion_efecto n d m w2 Ha2)
            as (err & w3 & Hrun & Htr & Hsi & Hal & Hval & Hco & Hw0).
          exists err, w3.
          split; [intros k Hk; rewrite Hrun, Hk; reflexivity|].
          split; [rewrite Htr; subst w2; simpl; rewrite <- !app_assoc; reflexivity|].
          split; [exact (sigue_trans _ _ _ Hs2 Hsi)|].
          split.
          { split; [exact Hval|]. destruct Hw0 as [w0 Hw0]; eauto. }
          split.
          { intros n0 Hn0. rewrite Hal.
            - subst w2. rewrite !almacen_con_traza. reflexivity.
            - intros Heq. destruct (Hn0 Heq) as [? ?]. discriminate. }
          intros Hc.
          assert (Hc2 : coherente w2).
          { subst w2. apply con_traza_coherente, con_traza_coherente, Hc. }
          destruct (Hco Hc2) as [Hc3 Hg3]. split; [exact Hc3|].
          apply (almacenes_crecen_ext w2 w w3 w3); [|reflexivity|exact Hg3].
          intros n0. subst w2. rewrite !almacen_con_traza. reflexivity.
    - destruct (sn_EnviarNotificacion_efecto n d m w Ha)
        as (err & w3 & Hrun & Htr & Hsi & Hal & Hval & Hco & Hw0).
      exists err, w3. unfold bind.
      split; [intros k Hk; rewrite Hrun, Hk; reflexivity|].
      split; [exact Htr|]. split; [exact Hsi|].
      split.
      { split; [exact Hval|]. destruct Hw0 as [w0 Hw0]; eauto. }
      split; [|exact Hco].
      intros n0 Hn0. apply Hal. intros Heq.
      destruct (Hn0 Heq) as [? ?]. discriminate. }
  destruct Hround as (e & w1 & Heq & Htr1 & Hsi1 & Hres1 & Hal1 & Hco1).
  destruct (IH (<[nombre_tipo n := e]> res) w1
              (Forall_asignado_sigue _ _ _ Hsi1 Hall'))
    as (outs & w2 & Hrun2 & Hlen & Htr2 & Hsi2 & Hres2 & Hal2 & Hco2).
  exists (e :: outs), w2.
  split; [rewrite (Heq (EnviarConValidacion_bucle ns d m) (fun _ => eq_refl));
          exact Hrun2|].
  split; [simpl; congruence|].
  split; [rewrite Htr2, Htr1; simpl; rewrite <- app_assoc; reflexivity|].
  split; [eapply sigue_trans; eassumption|].
  split; [constructor; assumption|].
  split.
  { intros n0 Hn0. rewrite Hal2, Hal1; [reflexivity| |].
    - intros ->. apply Hn0. left.
    - intros Hin. apply Hn0. right. exact Hin. }
  intros Hc. destruct (Hco1 Hc) as [Hc1 Hg1]. destruct (Hco2 Hc1) as [Hc2 Hg2].
  split; [exact Hc2|eapply almacenes_crecen_trans; eassumption].
Qed.

Lemma EnviarConValidacion_efecto sn d m w :
  Forall (fun n => asignado n w) (notificadores sn) ->
  exists outs w',
    EnviarConValidacion sn d m w = Some (recoger (notificadores sn) outs ∅, w') /\
    length outs = length (notificadores sn) /\
    traza w' = traza w ++
      concat (zip_with (llamadas_con_validacion d m) (notificadores sn) outs) /\
    sigue w w' /\
    Forall2 (resultado_validado d m) (notificadores sn) outs /\
    (forall n0, (n0 ∈ notificadores sn -> is_Some (rechazo_validacion n0 d m)) ->
       almacen n0 w' = almacen n0 w) /\
    (coherente w -> coherente w' /\ almacenes_crecen w w').
Proof. apply EnviarConValidacion_bucle_efecto. Qed.





Lemma ValidarMensaje_largo v m :
  limite_mensaje v < len m -> ValidarMensaje v m = Some (error_mensaje_largo v).
Proof.
  destruct v; simpl; intros H;
    unfold EmailNotificador_ValidarMensaje, SMSNotificador_ValidarMensaje;
    (destruct (Z.eqb_spec (len m) 0); [lia|]).
  - destruct (Z.gtb_spec (len m) 1000); [reflexivity|lia].
  - destruct (Z.gtb_spec (len m) 160); [reflexivity|lia].
Qed.

Lemma rechazo_validacion_tipo n n' d m :
  nombre_tipo n = nombre_tipo n' ->
  rechazo_validacion n d m = rechazo_validacion n' d m.
Proof. destruct n, n'; simpl; intros H; try discriminate; reflexivity. Qed.

(** C4.  When the message is longer than the limit of a backend that
    implements [ValidadorMensaje] (1000 for email, 160 for SMS),
    [EnviarConValidacion] stores for that backend the outcome
    "validación falló: " followed by the backend's message-too-long error,
    and the backend's Record Store after the call is the one before it. *)
Theorem EnviarConValidacion_mensaje_largo sn d m w n v :
  Forall (fun n0 => asignado n0 w) (notificadores sn) ->
  n ∈ notificadores sn ->
  como_ValidadorMensaje n = Some v ->
  limite_mensaje v < len m ->
  exists res w',
    EnviarConValidacion sn d m w = Some (res, w') /\
    ValidarMensaje v m = Some (error_mensaje_largo v) /\
    res !! nombre_tipo n
      = Some (Some ("validación falló: " +:+ error_mensaje_largo v)) /\
    almacen n w' = almacen n w.
Proof.
  intros Hall Hin Hv Hlen.
  pose proof (ValidarMensaje_largo v m Hlen) as Hvm.
  assert (Hrej : rechazo_validacion n d m
                 = Some ("validación falló: " +:+ error_mensaje_largo v)).
  { unfold rechazo_validacion. rewrite Hv, Hvm. reflexivity. }
  destruct (EnviarConValidacion_efecto sn d m w Hall)
    as (outs & w' & Hrun & Hl & _ & _ & Hres & Hal & _).
  exists (recoger (notificadores sn) outs ∅), w'.
  split; [exact Hrun|]. split; [exact Hvm|].
  split; [|apply Hal; intros _; rewrite Hrej; eauto].
  destruct (existe_ultimo (nombre_tipo n) (notificadores sn))
    as (j & n' & Hj & Ht & Hult); [eauto|].
  destruct (lookup_lt_is_Some_2 outs j) as [e He];
    [rewrite Hl; eapply lookup_lt_Some; exact Hj|].
  rewrite <- Ht.
  rewrite (recoger_ultimo _ outs ∅ j n' e Hj He Hult). f_equal.
  pose proof (Forall2_lookup_lr _ _ _ _ _ _ Hres Hj He) as Hrv.
  unfold resultado_validado in Hrv.
  rewrite (rechazo_validacion_tipo n' n d m Ht), Hrej in Hrv. exact Hrv.
Qed.

Lemma EnviarConValidacion_mensaje_largo_witness :
  (Forall (fun n0 => asignado n0 mundo_ej) (notificadores servicio_ej) /\
   NEmail 0 ∈ notificadores servicio_ej /\
   como_ValidadorMensaje (NEmail 0) = Some (VEmail 0) /\
   limite_mensaje (VEmail 0) < len (strings_Repeat "x" 1001)) /\
  exists res w',
    EnviarConValidacion servicio_ej "usuario@empresa.com"
      (strings_Repeat "x" 1001) mundo_ej = Some (res, w') /\
    ValidarMensaje (VEmail 0) (strings_Repeat "x" 1001)
      = Some (error_mensaje_largo (VEmail 0)) /\
    res !! nombre_tipo (NEmail 0)
      = Some (Some ("validación falló: " +:+ error_mensaje_largo (VEmail 0))) /\
    almacen (NEmail 0) w' = almacen (NEmail 0) mundo_ej.
Proof.
  assert (Hin : NEmail 0 ∈ notificadores servicio_ej) by left.
  assert (Hlen : limite_mensaje (VEmail 0) < len (strings_Repeat "x" 1001))
    by (vm_compute; reflexivity).
  split.
  - split; [exact asignados_servicio_ej|]. split; [exact Hin|].
    split; [reflexivity|exact Hlen].
  - apply (EnviarConValidacion_mensaje_largo servicio_ej _ _ mundo_ej
             (NEmail 0) (VEmail 0)).
    + exact asignados_servicio_ej.
    + exact Hin.
    + reflexivity.
    + exact Hlen.
Defined.

(** ** Validation rules of the email backend *)


Example ej_ValidarMensaje_vacio :
  EmailNotificador_ValidarMensaje "" = Some "mensaje no puede estar vacío".
Proof. reflexivity. Qed.

Example ej_ValidarMensaje_limite :
  EmailNotificador_ValidarMensaje (strings_Repeat "x" 1000) = None /\
  EmailNotificador_ValidarMensaje (strings_Repeat "x" 1001)
    = Some "mensaje muy largo (máximo 1000 caracteres)".
Proof. split; vm_compute; reflexivity. Qed.

Example ej_ValidarDestinatario :
  EmailNotificador_ValidarDestinatario "user@x.com" = None /\
  EmailNotificador_ValidarDestinatario "user"
    = Some "email inválido: debe contener @" /\
  EmailNotificador_ValidarDestinatario "user@x"
    = Some "email inválido: debe contener dominio".
Proof. repeat split. Qed.

(** ** One call of [EnviarNotificacion] and the Record Store *)

Lemma reloj_monotono_mundo_ej : reloj_monotono mundo_ej.
Proof. intros k. simpl. lia. Qed.

Lemma almacen_mundo_ej n rs : almacen n mundo_ej = Some rs -> rs = ∅.
Proof.
  destruct n as [p|p|p]; simpl; [| |discriminate]; intros H;
    apply fmap_Some in H as (o & Ho & ->).
  - apply lookup_insert_Some in Ho as [[_ <-]|[_ Ho]]; [reflexivity|].
    apply lookup_singleton_Some in Ho as [_ <-]. reflexivity.
  - apply lookup_singleton_Some in Ho as [_ <-]. reflexivity.
Qed.

Lemma coherente_mundo_ej : coherente mundo_ej.
Proof.
  split; [exact reloj_monotono_mundo_ej|].
  intros n rs id Hrs [reg Hreg]. apply almacen_mundo_ej in Hrs. subst rs.
  rewrite lookup_empty in Hreg. discriminate.
Qed.

(** Counterexample to C3 as stated: with a destination that has no '@', the
    email backend returns an error and its Record Store gains no record. *)
Lemma envio_invalido_no_crea_registro :
  EnviarNotificacion (NEmail 0) "user" "hi" mundo_ej
    = Some (Some "email inválido: debe contener @", mundo_ej) /\
  ~ envio_crea_un_registro (NEmail 0) "user" "hi" mundo_ej.
Proof.
  assert (Hrun : EnviarNotificacion (NEmail 0) "user" "hi" mundo_ej
                 = Some (Some "email inválido: debe contener @", mundo_ej))
    by reflexivity.
  split; [exact Hrun|].
  intros (err & w' & rs & id & reg & Hrun' & Hrs & Hno & Hrs' & _).
  rewrite Hrun in Hrun'. injection Hrun' as <- <-.
  rewrite Hrs in Hrs'. injection Hrs' as Heq.
  rewrite Heq, lookup_insert_eq in Hno. discriminate.
Qed.

(** The Slack backend keeps no records at all. *)
Lemma envio_slack_no_crea_registro :
  ~ envio_crea_un_registro (NSlack 0) "user@x.com" "hi" mundo_ej.
Proof. intros (err & w' & rs & id & reg & _ & Hrs & _). discriminate. Qed.

(** C3, amended.  In a coherent world (the clock does not step back, and
    the ids in the stores were made from earlier clock readings), a call of
    [EnviarNotificacion] on an allocated backend returns, and
    - for [SlackNotificador], which keeps no records, it returns no error and
      no Record Store changes;
    - for the email and SMS backends, if the backend's own validation of the
      destination and the message fails, it returns that error and the world
      is unchanged (no record is created);
    - otherwise the backend's Record Store gains exactly one record, under an
      id that was not in it, with one attempt counted; the record is
      [Enviada] or [Fallida], and an error is returned exactly when it is
      [Fallida]. *)
Theorem envio_registra n d m w :
  coherente w -> asignado n w ->
  exists err w',
    EnviarNotificacion n d m w = Some (err, w') /\
    match almacen n w with
    | None => err = None /\ forall n', almacen n' w' = almacen n' w
    | Some rs =>
        match validacion_propia n d m with
        | Some e => err = Some e /\ w' = w
        | None =>
            exists reg,
              rs !! id_siguiente n w = None /\
              almacen n w' = Some (<[id_siguiente n w := reg]> rs) /\
              ID reg = id_siguiente n w /\ Intentos reg = 1 /\
              (Estado reg = Enviada \/ Estado reg = Fallida) /\
              (is_Some err <-> Estado reg = Fallida)
        end
    end.
Proof.
  intros Hco Ha.
  destruct (EnviarNotificacion_efecto n d m w Ha)
    as (err & w' & Hrun & _ & _ & _ & _ & Haj & Hpr).
  exists err, w'. split; [exact Hrun|].
  destruct (almacen n w) as [rs|] eqn:Hrs.
  - destruct (validacion_propia n d m) as [e|]; [exact Hpr|].
    destruct Hpr as (reg & Hrs' & Hid & Hint & Hst & _).
    exists reg. split; [apply (id_siguiente_nuevo n w rs Hco Hrs)|].
    split; [exact Hrs'|]. split; [exact Hid|]. split; [exact Hint|].
    destruct Hst as [[Hs ->]|[Hs He]].
    + split; [auto|]. rewrite Hs. split; [intros [? ?]|]; discriminate.
    + split; [auto|]. tauto.
  - assert (Hv : validacion_propia n d m = None).
    { destruct n; simpl in *; try reflexivity;
        destruct Ha as [o Ho]; rewrite Ho in Hrs; discriminate. }
    rewrite Hv in Hpr. destruct Hpr as [-> Hnone]. split; [reflexivity|].
    intros n'. destruct (decide (n' = n)) as [->|Hne]; [congruence|auto].
Qed.

Lemma envio_registra_witness :
  (coherente mundo_ej /\ asignado (NEmail 0) mundo_ej) /\
  exists err w',
    EnviarNotificacion (NEmail 0) "user@x.com" "hi" mundo_ej = Some (err, w') /\
    match almacen (NEmail 0) mundo_ej with
    | None => err = None /\ forall n', almacen n' w' = almacen n' mundo_ej
    | Some rs =>
        match validacion_propia (NEmail 0) "user@x.com" "hi" with
        | Some e => err = Some e /\ w' = mundo_ej
        | None =>
            exists reg,
              rs !! id_siguiente (NEmail 0) mundo_ej = None /\
              almacen (NEmail 0) w'
                = Some (<[id_siguiente (NEmail 0) mundo_ej := reg]> rs) /\
              ID reg = id_siguiente (NEmail 0) mundo_ej /\ Intentos reg = 1 /\
              (Estado reg = Enviada \/ Estado reg = Fallida) /\
              (is_Some err <-> Estado reg = Fallida)
        end
    end.
Proof.
  assert (Ha : asignado (NEmail 0) mundo_ej) by (vm_compute; eauto).
  split; [split; [exact coherente_mundo_ej|exact Ha]|].
  apply envio_registra; [exact coherente_mundo_ej|exact Ha].
Defined.

(** ** Tracking: [ObtenerEstado] and [ObtenerEstadisticas] *)

Lemma ObtenerEstado_almacen n r id w rs :
  como_Rastreador n = Some r -> almacen n w = Some rs ->
  ObtenerEstado r id w =
  Some (match rs !! id with
        | Some reg => (EstadoNotificacion_string (Estado reg), None)
        | None => ("", Some (error_no_encontrado r))
        end, w).
Proof.
  destruct n as [p|p|p]; simpl; intros [= <-] Hrs; [| ];
    apply fmap_Some in Hrs as (o & Ho & ->); simpl;
    unfold EmailNotificador_ObtenerEstado, SMSNotificador_ObtenerEstado,
      leer_email, leer_sms, bind, ret; rewrite Ho;
    match goal with |- context [?m !! id] => destruct (m !! id) end;
    reflexivity.
Qed.

(** C7.  After a call of [EnviarNotificacion] on a backend with tracking that
    created a record (its own validation passed), with id [i] and in state
    [Enviada] or [Fallida], [ObtenerEstado i] right after the call returns
    the name of exactly that state and no error. *)
Theorem envio_y_estado n r d m w :
  asignado n w -> como_Rastreador n = Some r ->
  validacion_propia n d m = None ->
  exists err w' rs' reg,
    EnviarNotificacion n d m w = Some (err, w') /\
    almacen n w' = Some rs' /\
    rs' !! id_siguiente n w = Some reg /\ ID reg = id_siguiente n w /\
    (Estado reg = Enviada /\ err = None \/ Estado reg = Fallida /\ is_Some err) /\
    ObtenerEstado r (id_siguiente n w) w'
      = Some ((EstadoNotificacion_string (Estado reg), None), w').
Proof.
  intros Ha Hr Hv.
  destruct (EnviarNotificacion_efecto n d m w Ha)
    as (err & w' & Hrun & _ & _ & _ & _ & _ & Hpr).
  rewrite Hv in Hpr.
  assert (Hrs : exists rs, almacen n w = Some rs).
  { destruct n; simpl in *; try discriminate;
      destruct Ha as [o Ho]; rewrite Ho; simpl; eauto. }
  destruct Hrs as [rs Hrs]. rewrite Hrs in Hpr.
  destruct Hpr as (reg & Hrs' & Hid & _ & Hst & _).
  exists err, w', (<[id_siguiente n w := reg]> rs), reg.
  split; [exact Hrun|]. split; [exact Hrs'|].
  split; [apply lookup_insert_eq|]. split; [exact Hid|]. split; [exact Hst|].
  rewrite (ObtenerEstado_almacen n r _ w' _ Hr Hrs'), lookup_insert_eq.
  reflexivity.
Qed.

Lemma envio_y_estado_witness :
  (asignado (NSMS 0) mundo_ej /\ como_Rastreador (NSMS 0) = Some (RSMS 0) /\
   validacion_propia (NSMS 0) "+54911234567" "hola" = None) /\
  exists err w' rs' reg,
    EnviarNotificacion (NSMS 0) "+54911234567" "hola" mundo_ej = Some (err, w') /\
    almacen (NSMS 0) w' = Some rs' /\
    rs' !! id_siguiente (NSMS 0) mundo_ej = Some reg /\
    ID reg = id_siguiente (NSMS 0) mundo_ej /\
    (Estado reg = Enviada /\ err = None \/ Estado reg = Fallida /\ is_Some err) /\
    ObtenerEstado (RSMS 0) (id_siguiente (NSMS 0) mundo_ej) w'
      = Some ((EstadoNotificacion_string (Estado reg), None), w').
Proof.
  assert (Ha : asignado (NSMS 0) mundo_ej) by (vm_compute; eauto).
  split; [split; [exact Ha|split; reflexivity]|].
  apply envio_y_estado; [exact Ha|reflexivity|reflexivity].
Defined.

Lemma incrementar_insert k (z : Z) (st : gmap string Z) :
  incrementar k (<[k := z]> st) = <[k := z + 1]> st.
Proof.
  unfold incrementar. rewrite lookup_insert_eq. simpl. apply insert_insert_eq.
Qed.

Lemma incrementar_insert_ne k k' (z : Z) (st : gmap string Z) :
  k <> k' -> incrementar k (<[k' := z]> st) = <[k' := z]> (incrementar k st).
Proof.
  intros Hne. unfold incrementar. rewrite lookup_insert_ne by done.
  apply insert_insert_ne. done.
Qed.

Lemma cuantos_cons s reg l :
  cuantos s (reg :: l) = (if decide (Estado reg = s) then 1 else 0) + cuantos s l.
Proof.
  unfold cuantos. rewrite filter_cons. destruct (decide (Estado reg = s)); simpl; lia.
Qed.

Lemma foldr_contar_resumen r l : foldr (contar r) (stats0 r) l = resumen r l.
Proof.
  induction l as [|reg l IH]; [destruct r; reflexivity|].
  simpl foldr. rewrite IH. clear IH.
  destruct r; simpl contar; simpl resumen;
    unfold EmailNotificador_contar, SMSNotificador_contar;
    rewrite !cuantos_cons; cbv zeta; rewrite incrementar_insert;
    change (length (reg :: l)) with (S (length l));
    rewrite Nat2Z.inj_succ; unfold Z.succ;
    destruct (Estado reg); simpl;
    repeat (rewrite incrementar_insert_ne by discriminate);
    rewrite ?incrementar_insert;
    repeat match goal with
           | |- context [0 + ?x] => replace (0 + x) with x by lia
           | |- context [1 + ?x] => replace (1 + x) with (x + 1) by lia
           end; reflexivity.
Qed.

Lemma resumen_Permutation r l1 l2 : l1 ≡ₚ l2 -> resumen r l1 = resumen r l2.
Proof.
  intros Hp.
  assert (Hc : forall s, cuantos s l1 = cuantos s l2).
  { intros s. unfold cuantos. f_equal. apply Permutation_length.
    apply filter_Permutation, Hp. }
  destruct r; simpl; rewrite !Hc, (Permutation_length Hp); reflexivity.
Qed.

(** The order in which the loop of [ObtenerEstadisticas] meets the records
    does not matter. *)
Lemma contar_permutacion r l1 l2 :
  l1 ≡ₚ l2 -> foldr (contar r) (stats0 r) l1 = foldr (contar r) (stats0 r) l2.
Proof. intros Hp. rewrite !foldr_contar_resumen. apply resumen_Permutation, Hp. Qed.

Lemma ObtenerEstadisticas_almacen n r w rs :
  como_Rastreador n = Some r -> almacen n w = Some rs ->
  ObtenerEstadisticas r w = Some (resumen r (snd <$> map_to_list rs), w).
Proof.
  intros Hr Hrs. rewrite <- foldr_contar_resumen.
  destruct n as [p|p|p]; simpl in *; [| |discriminate]; injection Hr as <-;
    apply fmap_Some in Hrs as (o & Ho & ->); simpl;
    unfold EmailNotificador_ObtenerEstadisticas,
      SMSNotificador_ObtenerEstadisticas, leer_email, leer_sms, bind, ret;
    rewrite Ho; reflexivity.
Qed.

(** C8.  [ObtenerEstadisticas] on a backend with tracking returns its counts
    and leaves the world as it was, so a second call right after it returns
    the same counts; the counts are those of the records of the store by
    state ([resumen]), whatever order the loop meets the records in, and
    depend on nothing but the store. *)
Theorem ObtenerEstadisticas_idempotente n r w rs :
  como_Rastreador n = Some r -> almacen n w = Some rs ->
  exists st,
    ObtenerEstadisticas r w = Some (st, w) /\
    (st1 <- ObtenerEstadisticas r ;; st2 <- ObtenerEstadisticas r ;; ret (st1, st2)) w
      = Some ((st, st), w) /\
    st = resumen r (snd <$> map_to_list rs) /\
    (forall l, l ≡ₚ snd <$> map_to_list rs ->
       foldr (contar r) (stats0 r) l = st) /\
    (forall w2, almacen n w2 = Some rs -> ObtenerEstadisticas r w2 = Some (st, w2)).
Proof.
  intros Hr Hrs.
  pose proof (ObtenerEstadisticas_almacen n r w rs Hr Hrs) as Hrun.
  exists (resumen r (snd <$> map_to_list rs)).
  split; [exact Hrun|].
  split; [unfold bind, ret; rewrite Hrun, Hrun; reflexivity|].
  split; [reflexivity|]. split.
  - intros l Hl. rewrite foldr_contar_resumen. apply resumen_Permutation, Hl.
  - intros w2 Hrs2. apply (ObtenerEstadisticas_almacen n r w2 rs Hr Hrs2).
Qed.


(** ** Life cycle of a record *)



Lemma asignado_almacen r w :
  asignado (notificador_de r) w <-> is_Some (almacen (notificador_de r) w).
Proof.
  destruct r; simpl; rewrite fmap_is_Some; reflexivity.
Qed.


Lemma fresh_no_asignado {A} (h : gmap nat A) : h !! fresh (dom h) = None.
Proof. apply not_elem_of_dom, is_fresh. Qed.




Lemma mundo_tras_envio_eq :
  EnviarNotificacion (NEmail 0) "user@x.com" "hi" mundo_ej
    = Some (None, mundo_tras_envio).
Proof. vm_compute. reflexivity. Qed.

Lemma almacen_mundo_tras_envio :
  almacen (NEmail 0) mundo_tras_envio
    = Some {[ "email_1700000000000000007" := registro_ej ]}.
Proof. vm_compute. reflexivity. Qed.

Lemma coherente_mundo_tras_envio : coherente mundo_tras_envio.
Proof.
  apply (EnviarNotificacion_coherente (NEmail 0) "user@x.com" "hi" mundo_ej None).
  - exact coherente_mundo_ej.
  - vm_compute. eauto.
  - exact mundo_tras_envio_eq.
Qed.


Lemma ObtenerEstadisticas_idempotente_witness :
  (como_Rastreador (NEmail 0) = Some (REmail 0) /\
   almacen (NEmail 0) mundo_tras_envio
     = Some {[ "email_1700000000000000007" := registro_ej ]}) /\
  exists st,
    ObtenerEstadisticas (REmail 0) mundo_tras_envio = Some (st, mundo_tras_envio) /\
    (st1 <- ObtenerEstadisticas (REmail 0) ;;
     st2 <- ObtenerEstadisticas (REmail 0) ;; ret (st1, st2)) mundo_tras_envio
      = Some ((st, st), mundo_tras_envio) /\
    st = resumen (REmail 0)
           (snd <$> map_to_list
              ({[ "email_1700000000000000007" := registro_ej ]}
               : gmap string RegistroNotificacion)) /\
    (forall l,
       l ≡ₚ snd <$> map_to_list
              ({[ "email_1700000000000000007" := registro_ej ]}
               : gmap string RegistroNotificacion) ->
       foldr (contar (REmail 0)) (stats0 (REmail 0)) l = st) /\
    (forall w2,
       almacen (NEmail 0) w2
         = Some {[ "email_1700000000000000007" := registro_ej ]} ->
       ObtenerEstadisticas (REmail 0) w2 = Some (st, w2)).
Proof.
  split; [split; [reflexivity|exact almacen_mundo_tras_envio]|].
  apply (ObtenerEstadisticas_idempotente (NEmail 0) (REmail 0) mundo_tras_envio);
    [reflexivity|exact almacen_mundo_tras_envio].
Defined.

(** ** Worked examples *)

(** A world with no backend yet is coherent as soon as its clock is
    monotone, and has no record at all. *)
Lemma mundo_vacio_coherente w :
  reloj_monotono w -> emails w = ∅ -> smss w = ∅ ->
  coherente w /\ sin_entregadas w.
Proof.
  intros Hm He Hs.
  assert (Hno : forall n, almacen n w = None).
  { intros [p|p|p]; simpl; rewrite ?He, ?Hs, ?lookup_empty; reflexivity. }
  split; [split; [exact Hm|]|]; intros n rs; rewrite Hno; discriminate.
Qed.

(** The run of [main]: one email backend (also the logger), one SMS backend
    and one Slack backend; the SMS backend turns the email address down. *)
Example ej_EnviarATodos :
  exists w',
    EnviarATodos servicio_ej "admin@empresa.com" "Sistema iniciado correctamente"
      mundo_ej
    = Some (<["*main.SlackNotificador" := None]>
              (<["*main.SMSNotificador" := Some "número debe empezar con + o 0"]>
                 (<["*main.EmailNotificador" := None]> ∅)), w') /\
    envios (traza w') =
      [LlEnviarNotificacion (NEmail 0) "admin@empresa.com"
         "Sistema iniciado correctamente" None;
       LlEnviarNotificacion (NSMS 0) "admin@empresa.com"
         "Sistema iniciado correctamente" (Some "número debe empezar con + o 0");
       LlEnviarNotificacion (NSlack 0) "admin@empresa.com"
         "Sistema iniciado correctamente" None].
Proof. eexists. split; vm_compute; reflexivity. Qed.

Example ej_EnviarConValidacion :
  exists w',
    EnviarConValidacion servicio_ej "user" "hi" mundo_ej
    = Some (<["*main.SlackNotificador" := None]>
              (<["*main.SMSNotificador" :=
                   Some "destinatario inválido: número de teléfono muy corto"]>
                 (<["*main.EmailNotificador" :=
                      Some "destinatario inválido: email inválido: debe contener @"]>
                    ∅)), w') /\
    traza w' =
      [LlValidarMensaje (VEmail 0) "hi" None;
       LlValidarDestinatario (VEmail 0) "user"
         (Some "email inválido: debe contener @");
       LlValidarMensaje (VSMS 0) "hi" None;
       LlValidarDestinatario (VSMS 0) "user" (Some "número de teléfono muy corto");
       LlEnviarNotificacion (NSlack 0) "user" "hi" None] /\
    emails w' = emails mundo_ej /\ smss w' = smss mundo_ej.
Proof.
  eexists. split; [vm_compute; reflexivity|].
  split; [vm_compute; reflexivity|]. split; vm_compute; reflexivity.
Qed.

(** With two email backends registered, the later one's outcome is the one
    the map keeps. *)
Example ej_tipo_repetido :
  exists w',
    EnviarATodos servicio_doble_ej "admin@empresa.com" "hola" mundo_ej
    = Some (<["*main.SlackNotificador" := None]>
              (<["*main.EmailNotificador" := None]> ∅), w') /\
    length (envios (traza w')) = 3%nat.
Proof. eexists. split; vm_compute; reflexivity. Qed.

(** A send that fails: with the clock drifting by 10 ns per reading the
    reading that decides the outcome is a multiple of 10. *)
Example ej_envio_fallido :
  let w := {| ahora := ahora mundo_ej; deriva := fun _ => 10; lecturas := 0;
              salida := []; emails := emails mundo_ej; smss := smss mundo_ej;
              slacks := slacks mundo_ej; traza := [] |} in
  exists w',
    EnviarNotificacion (NEmail 0) "user@x.com" "hi" w
      = Some (Some "fallo al enviar email", w') /\
    ObtenerEstado (REmail 0) "email_1700000000000000010" w'
      = Some (("fallida", None), w') /\
    ObtenerEstadisticas (REmail 0) w'
      = Some (<["total" := 1]> (<["enviadas" := 0]> (<["fallidas" := 1]>
                (<["pendientes" := 0]> ∅))), w').
Proof.
  eexists. split; [vm_compute; reflexivity|].
  split; vm_compute; reflexivity.
Qed.

(** * The rest of the code *)

(** ** Validation rules of the SMS backend *)

Lemma strings_HasPrefix_caracter (c : ascii) (s : string) :
  strings_HasPrefix s (String c EmptyString) = true <->
  exists resto, s = String c resto.
Proof.
  destruct s as [|d s]; simpl.
  - split; [discriminate|intros [? ?]; discriminate].
  - destruct (Ascii.eqb_spec c d) as [->|Hne].
    + split; eauto.
    + split; [discriminate|intros [? [= ? ?]]; congruence].
Qed.

(** X1.  [ValidarMensaje] of the SMS backend returns no error exactly when
    the message is not empty and has at most 160 bytes, and
    [ValidarDestinatario] returns no error exactly when the destination has
    at least 10 bytes and begins with '+' or with '0'.  Too short is
    reported before a wrong first character. *)
Theorem validacion_sms_exacta (mensaje destinatario : string) :
  (SMSNotificador_ValidarMensaje mensaje = None <->
     (0 < String.length mensaje <= 160)%nat) /\
  (SMSNotificador_ValidarDestinatario destinatario = None <->
     (10 <= String.length destinatario)%nat /\
     exists resto, destinatario = String "+" resto \/
                   destinatario = String "0" resto) /\
  ((String.length destinatario < 10)%nat ->
     SMSNotificador_ValidarDestinatario destinatario
       = Some "número de teléfono muy corto") /\
  (String.length mensaje = 0%nat ->
     SMSNotificador_ValidarMensaje mensaje
       = Some "mensaje SMS no puede estar vacío").
Proof.
  split; [|split; [|split]].
  - unfold SMSNotificador_ValidarMensaje, len, errors_New.
    destruct (Z.eqb_spec (Z.of_nat (String.length mensaje)) 0);
      [split; [discriminate|lia]|].
    destruct (Z.gtb_spec (Z.of_nat (String.length mensaje)) 160);
      split; try discriminate; try reflexivity; lia.
  - unfold SMSNotificador_ValidarDestinatario, len, errors_New.
    destruct (Z.ltb_spec (Z.of_nat (String.length destinatario)) 10).
    { split; [discriminate|intros [? _]; lia]. }
    pose proof (strings_HasPrefix_caracter "+" destinatario) as Hmas.
    pose proof (strings_HasPrefix_caracter "0" destinatario) as Hcero.
    destruct (strings_HasPrefix destinatario "+"),
             (strings_HasPrefix destinatario "0"); simpl.
    + split; [intros _; split; [lia|]|reflexivity].
      destruct (proj1 Hmas eq_refl) as [r ->]. eauto.
    + split; [intros _; split; [lia|]|reflexivity].
      destruct (proj1 Hmas eq_refl) as [r ->]. eauto.
    + split; [intros _; split; [lia|]|reflexivity].
      destruct (proj1 Hcero eq_refl) as [r ->]. eauto.
    + split; [discriminate|]. intros [_ [r [Hr|Hr]]].
      * assert (false = true) by (apply Hmas; eauto). discriminate.
      * assert (false = true) by (apply Hcero; eauto). discriminate.
  - intros Hlt. unfold SMSNotificador_ValidarDestinatario, len.
    destruct (Z.ltb_spec (Z.of_nat (String.length destinatario)) 10);
      [reflexivity|lia].
  - intros Hz. unfold SMSNotificador_ValidarMensaje, len. rewrite Hz.
    reflexivity.
Qed.

Example ej_validacion_sms :
  SMSNotificador_ValidarDestinatario "+54911234567" = None /\
  SMSNotificador_ValidarDestinatario "0123456789" = None /\
  SMSNotificador_ValidarDestinatario "1234567890"
    = Some "número debe empezar con + o 0" /\
  SMSNotificador_ValidarDestinatario "+5491"
    = Some "número de teléfono muy corto" /\
  SMSNotificador_ValidarMensaje (strings_Repeat "x" 160) = None /\
  SMSNotificador_ValidarMensaje (strings_Repeat "x" 161)
    = Some "mensaje SMS muy largo (máximo 160 caracteres)".
Proof. repeat split; vm_compute; reflexivity. Qed.

(** ** [ObtenerEstado] *)

Lemma EstadoNotificacion_string_inj s1 s2 :
  EstadoNotificacion_string s1 = EstadoNotificacion_string s2 -> s1 = s2.
Proof. destruct s1, s2; simpl; intros H; try discriminate; reflexivity. Qed.

(** X2.  [ObtenerEstado] never changes the world.  On a receiver that is not
    allocated it panics.  Otherwise it returns no error exactly when the id
    is a key of the backend's Record Store, and then the string it returns is
    the name of the state of the record under that key (never the empty
    string, and different states have different names); for any other id it
    returns the empty string and the backend's not-found error. *)
Theorem ObtenerEstado_segun_almacen (r : Rastreador) (id : string) (w : Mundo) :
  match almacen (notificador_de r) w with
  | None => ObtenerEstado r id w = None
  | Some rs =>
      exists s e,
        ObtenerEstado r id w = Some ((s, e), w) /\
        (e = None <-> is_Some (rs !! id)) /\
        (forall reg, rs !! id = Some reg ->
           s = EstadoNotificacion_string (Estado reg) /\ s <> "" /\
           forall st, s = EstadoNotificacion_string st -> st = Estado reg) /\
        (rs !! id = None -> s = "" /\ e = Some (error_no_encontrado r))
  end.
Proof.
  destruct (almacen (notificador_de r) w) as [rs|] eqn:Hrs.
  - rewrite (ObtenerEstado_almacen (notificador_de r) r id w rs);
      [|destruct r; reflexivity|exact Hrs].
    destruct (rs !! id) as [reg|] eqn:Hreg.
    + eexists _, _. split; [reflexivity|].
      split; [split; eauto|]. split; [|discriminate].
      intros reg' [= <-]. split; [reflexivity|].
      split; [destruct (Estado reg); discriminate|].
      intros st Hst. symmetry. apply EstadoNotificacion_string_inj, Hst.
    + eexists _, _. split; [reflexivity|].
      split; [split; [discriminate|intros [? ?]; discriminate]|].
      split; [discriminate|]. auto.
  - destruct r as [p|p]; simpl in *;
      unfold EmailNotificador_ObtenerEstado, SMSNotificador_ObtenerEstado,
        leer_email, leer_sms, bind;
      match goal with |- context [?h !! p] => destruct (h !! p) end;
      [discriminate|reflexivity|discriminate|reflexivity].
Qed.

(** ** The two orders of validation *)


Example ej_validaciones_distintas :
  rechazo_validacion (NEmail 0) "user" ""
    = Some "validación falló: mensaje no puede estar vacío" /\
  validacion_propia (NEmail 0) "user" ""
    = Some "email inválido: debe contener @".
Proof. split; reflexivity. Qed.

(** ** The record a delivery leaves *)

Lemma EnviarNotificacion_registro n d m w rs :
  almacen n w = Some rs -> validacion_propia n d m = None ->
  exists err reg w',
    EnviarNotificacion n d m w = Some (err, w') /\
    almacen n w' = Some (<[id_siguiente n w := reg]> rs) /\
    ID reg = id_siguiente n w /\ Tipo reg = tipo_de n /\
    Destinatario reg = d /\ Mensaje reg = m /\ Intentos reg = 1 /\
    Timestamp reg = ahora w + deriva w (lecturas w) + deriva w (S (lecturas w)) /\
    (Estado reg = Enviada /\ Error reg = "" /\ err = None \/
     Estado reg = Fallida /\ Error reg = error_registro n /\
     err = Some (error_entrega n)).
Proof.
  intros Hrs Hv. unfold validacion_propia in Hv.
  destruct n as [p|p|p]; simpl in *; [| |discriminate];
    apply fmap_Some in Hrs as (o & Ho & ->).
  - destruct (EmailNotificador_ValidarDestinatario d) eqn:Hd; [discriminate|].
    pose proof (EmailNotificador_crear_registro_eq p o d m w Ho) as Hc.
    cbv zeta in Hc.
    set (id := "email_" +:+ pretty (ahora w + deriva w (lecturas w))) in *.
    set (reg1 := {| ID := id; Estado := Pendiente |}) in Hc.
    set (o1 := con_e_registros (<[id := reg1]> (e_registros o)) o) in Hc.
    set (w1 := con_emails _ _) in Hc.
    assert (Ho1 : emails w1 !! p = Some o1)
      by (subst w1; simpl; apply lookup_insert_eq).
    assert (Hr1 : e_registros o1 !! id = Some reg1)
      by (subst o1; simpl; apply lookup_insert_eq).
    pose proof (EmailNotificador_entregar_eq p o1 d id reg1 w1 Ho1 Hr1) as He.
    cbv zeta in He.
    eexists _, _, _. split.
    { unfold EmailNotificador_EnviarNotificacion, bind.
      rewrite Hd, Hv, Hc. exact He. }
    split.
    { simpl. rewrite lookup_insert_eq. simpl. rewrite insert_insert_eq.
      reflexivity. }
    destruct (Z.rem _ 10 =? 0); simpl; repeat split; auto.
  - destruct (SMSNotificador_ValidarDestinatario d) eqn:Hd; [discriminate|].
    pose proof (SMSNotificador_crear_registro_eq p o d m w Ho) as Hc.
    cbv zeta in Hc.
    set (id := "sms_" +:+ pretty (ahora w + deriva w (lecturas w))) in *.
    set (reg1 := {| ID := id; Estado := Pendiente |}) in Hc.
    set (o1 := con_s_registros (<[id := reg1]> (s_registros o)) o) in Hc.
    set (w1 := con_smss _ _) in Hc.
    assert (Ho1 : smss w1 !! p = Some o1)
      by (subst w1; simpl; apply lookup_insert_eq).
    assert (Hr1 : s_registros o1 !! id = Some reg1)
      by (subst o1; simpl; apply lookup_insert_eq).
    pose proof (SMSNotificador_entregar_eq p o1 d id reg1 w1 Ho1 Hr1) as He.
    cbv zeta in He.
    eexists _, _, _. split.
    { unfold SMSNotificador_EnviarNotificacion, bind.
      rewrite Hd, Hv, Hc. exact He. }
    split.
    { simpl. rewrite lookup_insert_eq. simpl. rewrite insert_insert_eq.
      reflexivity. }
    destruct (Z.rem _ 20 =? 0); simpl; repeat split; auto.
Qed.

(** On a receiver that is not allocated, input that passes the backend's
    validation makes [EnviarNotificacion] panic. *)
Lemma EnviarNotificacion_no_asignado n d m w :
  ~ asignado n w -> validacion_propia n d m = None ->
  EnviarNotificacion n d m w = None.
Proof.
  intros Hna Hv. unfold validacion_propia in Hv.
  destruct n as [p|p|p]; simpl in *.
  - destruct (EmailNotificador_ValidarDestinatario d) eqn:Hd; [discriminate|].
    unfold EmailNotificador_EnviarNotificacion, EmailNotificador_crear_registro.
    rewrite Hd, Hv. desplegar. simpl.
    destruct (emails w !! p) eqn:Ho; [exfalso; apply Hna; eauto|reflexivity].
  - destruct (SMSNotificador_ValidarDestinatario d) eqn:Hd; [discriminate|].
    unfold SMSNotificador_EnviarNotificacion, SMSNotificador_crear_registro.
    rewrite Hd, Hv. desplegar. simpl.
    destruct (smss w !! p) eqn:Ho; [exfalso; apply Hna; eauto|reflexivity].
  - unfold SlackNotificador_EnviarNotificacion. desplegar.
    destruct (slacks w !! p) eqn:Ho; [exfalso; apply Hna; eauto|reflexivity].
Qed.

Lemma asignado_con_validador n w :
  asignado n w -> is_Some (como_Rastreador n) -> is_Some (almacen n w).
Proof.
  destruct n; simpl; intros [o Ho] [r Hr]; try discriminate;
    rewrite Ho; simpl; eauto.
Qed.

(** What [EnviarNotificacion] can return on input that passes the backend's
    validation: nothing, or the delivery failure of a backend that keeps
    records. *)
Lemma EnviarNotificacion_resultado n d m w e w' :
  EnviarNotificacion n d m w = Some (e, w') ->
  validacion_propia n d m = None ->
  e = None \/ e = Some (error_entrega n) /\ is_Some (como_Rastreador n).
Proof.
  intros Hrun Hv.
  destruct (decide (asignado n w)) as [Ha|Hna];
    [|rewrite (EnviarNotificacion_no_asignado n d m w Hna Hv) in Hrun;
      discriminate].
  destruct (almacen n w) as [rs|] eqn:Hrs.
  - destruct (EnviarNotificacion_registro n d m w rs Hrs Hv)
      as (err & reg & w1 & Hrun1 & _ & _ & _ & _ & _ & _ & _ & Hst).
    rewrite Hrun in Hrun1. injection Hrun1 as <- <-.
    destruct Hst as [(_ & _ & ->)|(_ & _ & ->)]; [left; reflexivity|].
    right. split; [reflexivity|].
    destruct n; simpl in *; eauto; discriminate.
  - destruct (EnviarNotificacion_efecto n d m w Ha)
      as (err & w1 & Hrun1 & _ & _ & _ & _ & _ & Hpr).
    rewrite Hrun in Hrun1. injection Hrun1 as <- <-.
    rewrite Hv, Hrs in Hpr. left. tauto.
Qed.

(** ** The outcomes of [EnviarConValidacion] *)

Lemma recoger_origen ns :
  forall errs res k e,
    recoger ns errs res !! k = Some e ->
    res !! k = Some e \/
    exists j n, ns !! j = Some n /\ errs !! j = Some e /\ nombre_tipo n = k.
Proof.
  induction ns as [|n ns IH]; intros [|e0 errs] res k e Hk; simpl in *;
    try (left; exact Hk).
  destruct (IH errs _ k e Hk) as [Hres|(j & n' & Hj & He & Ht)].
  - destruct (decide (nombre_tipo n = k)) as [Heq|Hne].
    + rewrite Heq, lookup_insert_eq in Hres. injection Hres as ->.
      right. exists 0%nat, n. auto.
    + rewrite lookup_insert_ne in Hres by done. left. exact Hres.
  - right. exists (S j), n'. auto.
Qed.

Lemma rechazo_implica_propia n d m :
  rechazo_validacion n d m = None -> validacion_propia n d m = None.
Proof.
  unfold rechazo_validacion, validacion_propia, fmt_Errorf.
  destruct (como_ValidadorMensaje n) as [v|]; [|reflexivity].
  destruct (ValidarMensaje v m), (ValidarDestinatario v d);
    intros H; try discriminate; reflexivity.
Qed.

Lemma resultado_validado_clasificado d m n e :
  resultado_validado d m n e -> resultado_clasificado d m n e.
Proof.
  unfold resultado_validado, resultado_clasificado.
  destruct (rechazo_validacion n d m) eqn:Hr; [auto|].
  intros [_ (w0 & w0' & Hrun)].
  apply (EnviarNotificacion_resultado n d m w0 e w0' Hrun).
  apply rechazo_implica_propia, Hr.
Qed.

(** X4.  Every outcome [EnviarConValidacion] puts in its map, for a backend
    [n], is of one of three kinds, and the text tells which: the failure of
    the dispatcher's validation ("validación falló: ..." or "destinatario
    inválido: ..."), no error, or the delivery failure of [n] ("fallo al
    enviar email" or "fallo al enviar SMS", only for a backend that keeps
    records).  It is never the bare validation error of the backend's own
    [EnviarNotificacion]: what the dispatcher's validation lets through, the
    backend's validation lets through too. *)
Theorem EnviarConValidacion_resultados sn d m w :
  Forall (fun n => asignado n w) (notificadores sn) ->
  exists res w' outs,
    EnviarConValidacion sn d m w = Some (res, w') /\
    Forall2 (resultado_clasificado d m) (notificadores sn) outs /\
    (forall k e, res !! k = Some e ->
       exists n, n ∈ notificadores sn /\ nombre_tipo n = k /\
                 resultado_clasificado d m n e) /\
    (forall n, n ∈ notificadores sn -> rechazo_validacion n d m = None ->
       validacion_propia n d m = None).
Proof.
  intros Hall.
  destruct (EnviarConValidacion_efecto sn d m w Hall)
    as (outs & w' & Hrun & Hlen & _ & _ & Hres & _ & _).
  assert (Hcl : Forall2 (resultado_clasificado d m) (notificadores sn) outs).
  { eapply Forall2_impl; [exact Hres|]. apply resultado_validado_clasificado. }
  exists (recoger (notificadores sn) outs ∅), w', outs.
  split; [exact Hrun|]. split; [exact Hcl|]. split.
  - intros k e Hk.
    destruct (recoger_origen _ _ _ _ _ Hk) as [He|(j & n & Hj & He & Ht)];
      [rewrite lookup_empty in He; discriminate|].
    exists n. split; [eapply list_elem_of_lookup_2; exact Hj|].
    split; [exact Ht|]. exact (Forall2_lookup_lr _ _ _ _ _ _ Hcl Hj He).
  - intros n _. apply rechazo_implica_propia.
Qed.

Lemma EnviarConValidacion_resultados_witness :
  Forall (fun n => asignado n mundo_ej) (notificadores servicio_ej) /\
  exists res w' outs,
    EnviarConValidacion servicio_ej "usuario@empresa.com" "Mensaje validado" mundo_ej
      = Some (res, w') /\
    Forall2 (resultado_clasificado "usuario@empresa.com" "Mensaje validado")
      (notificadores servicio_ej) outs /\
    (forall k e, res !! k = Some e ->
       exists n, n ∈ notificadores servicio_ej /\ nombre_tipo n = k /\
                 resultado_clasificado "usuario@empresa.com" "Mensaje validado" n e) /\
    (forall n, n ∈ notificadores servicio_ej ->
       rechazo_validacion n "usuario@empresa.com" "Mensaje validado" = None ->
       validacion_propia n "usuario@empresa.com" "Mensaje validado" = None).
Proof.
  split; [exact asignados_servicio_ej|].
  apply EnviarConValidacion_resultados. exact asignados_servicio_ej.
Defined.

(** ** Tracking depends on the store alone *)

Lemma ObtenerEstadisticas_segun_almacen r w :
  ObtenerEstadisticas r w =
  match almacen (notificador_de r) w with
  | Some rs => Some (resumen r (snd <$> map_to_list rs), w)
  | None => None
  end.
Proof.
  destruct (almacen (notificador_de r) w) as [rs|] eqn:Hrs.
  - apply (ObtenerEstadisticas_almacen (notificador_de r) r w rs);
      [destruct r; reflexivity|exact Hrs].
  - destruct r as [p|p]; simpl in *;
      unfold EmailNotificador_ObtenerEstadisticas,
        SMSNotificador_ObtenerEstadisticas, leer_email, leer_sms, bind;
      match goal with |- context [?h !! p] => destruct (h !! p) end;
      [discriminate|reflexivity|discriminate|reflexivity].
Qed.

Lemma ObtenerEstado_depende_del_almacen r id w w' :
  almacen (notificador_de r) w' = almacen (notificador_de r) w ->
  fst <$> ObtenerEstado r id w' = fst <$> ObtenerEstado r id w.
Proof.
  intros Heq.
  destruct (almacen (notificador_de r) w) as [rs|] eqn:Hrs.
  - rewrite (ObtenerEstado_almacen (notificador_de r) r id w rs);
      [|destruct r; reflexivity|exact Hrs].
    rewrite (ObtenerEstado_almacen (notificador_de r) r id w' rs);
      [reflexivity|destruct r; reflexivity|exact Heq].
  - destruct r as [p|p]; simpl in *;
      unfold EmailNotificador_ObtenerEstado, SMSNotificador_ObtenerEstado,
        leer_email, leer_sms, bind;
      destruct (_ !! p) eqn:H1 in Heq; try discriminate;
      destruct (_ !! p) eqn:H2 in Hrs; try discriminate;
      rewrite H1, H2; reflexivity.
Qed.

(** X7.  A call of [EnviarNotificacion] on one backend changes what no other
    backend reports: for every other backend with tracking,
    [ObtenerEstadisticas] and [ObtenerEstado] return after the call what
    they returned before it. *)
Theorem envio_no_toca_otros n d m w err w' (r' : Rastreador) :
  EnviarNotificacion n d m w = Some (err, w') ->
  notificador_de r' <> n ->
  almacen (notificador_de r') w' = almacen (notificador_de r') w /\
  fst <$> ObtenerEstadisticas r' w' = fst <$> ObtenerEstadisticas r' w /\
  forall id, fst <$> ObtenerEstado r' id w' = fst <$> ObtenerEstado r' id w.
Proof.
  intros Hrun Hne.
  assert (Heq : almacen (notificador_de r') w' = almacen (notificador_de r') w).
  { destruct (decide (asignado n w)) as [Ha|Hna].
    - destruct (EnviarNotificacion_efecto n d m w Ha)
        as (err0 & w0 & Hrun0 & _ & _ & _ & _ & Haj & _).
      rewrite Hrun in Hrun0. injection Hrun0 as <- <-. apply Haj, Hne.
    - destruct (validacion_propia n d m) as [e|] eqn:Hv.
      + rewrite (EnviarNotificacion_rechazo n d m w e Hv) in Hrun.
        injection Hrun as <- <-. reflexivity.
      + rewrite (EnviarNotificacion_no_asignado n d m w Hna Hv) in Hrun.
        discriminate. }
  split; [exact Heq|]. split.
  - rewrite !ObtenerEstadisticas_segun_almacen, Heq.
    destruct (almacen (notificador_de r') w); reflexivity.
  - intros id. apply ObtenerEstado_depende_del_almacen, Heq.
Qed.

Lemma envio_no_toca_otros_witness :
  (EnviarNotificacion (NEmail 0) "user@x.com" "hi" mundo_ej
     = Some (None, mundo_tras_envio) /\
   notificador_de (REmail 1) <> NEmail 0) /\
  almacen (notificador_de (REmail 1)) mundo_tras_envio
    = almacen (notificador_de (REmail 1)) mundo_ej /\
  fst <$> ObtenerEstadisticas (REmail 1) mundo_tras_envio
    = fst <$> ObtenerEstadisticas (REmail 1) mundo_ej /\
  forall id, fst <$> ObtenerEstado (REmail 1) id mundo_tras_envio
             = fst <$> ObtenerEstado (REmail 1) id mundo_ej.
Proof.
  assert (Hne : notificador_de (REmail 1) <> NEmail 0) by discriminate.
  split; [split; [exact mundo_tras_envio_eq|exact Hne]|].
  apply (envio_no_toca_otros (NEmail 0) "user@x.com" "hi" mundo_ej None);
    [exact mundo_tras_envio_eq|exact Hne].
Defined.

(** ** Statistics and deliveries *)

Lemma resumen_cons r reg l :
  resumen r (reg :: l) = contar r reg (resumen r l).
Proof. rewrite <- !foldr_contar_resumen. reflexivity. Qed.

Lemma resumen_total r l : resumen r l !! "total" = Some (Z.of_nat (length l)).
Proof. destruct r; simpl; apply lookup_insert_eq. Qed.

Lemma resumen_insert r (rs : gmap string RegistroNotificacion) id reg :
  rs !! id = None ->
  resumen r (snd <$> map_to_list (<[id := reg]> rs))
  = contar r reg (resumen r (snd <$> map_to_list rs)).
Proof.
  intros Hno. rewrite <- resumen_cons. apply resumen_Permutation.
  change (reg :: (snd <$> map_to_list rs))
    with (snd <$> ((id, reg) :: map_to_list rs)).
  apply fmap_Permutation, map_to_list_insert, Hno.
Qed.

(** X8.  In a coherent world, a delivery on a backend with tracking (input
    that passes its validation) moves its statistics by one step of their
    loop: [total] goes up by one, to the new size of the store, and so does
    the count of sent records if the call returned no error, of failed
    records if it returned one; every other count stays. *)
Theorem estadisticas_tras_envio (r : Rastreador) d m w rs :
  coherente w ->
  almacen (notificador_de r) w = Some rs ->
  validacion_propia (notificador_de r) d m = None ->
  exists err w' st,
    EnviarNotificacion (notificador_de r) d m w = Some (err, w') /\
    ObtenerEstadisticas r w = Some (st, w) /\
    st !! "total" = Some (Z.of_nat (size rs)) /\
    ObtenerEstadisticas r w'
      = Some (incrementar (match err with
                           | None => clave_enviadas r
                           | Some _ => clave_fallidas r
                           end) (incrementar "total" st), w') /\
    incrementar "total" st !! "total" = Some (Z.of_nat (size rs) + 1).
Proof.
  intros Hco Hrs Hv.
  destruct (EnviarNotificacion_registro _ d m w rs Hrs Hv)
    as (err & reg & w' & Hrun & Hrs' & _ & _ & _ & _ & _ & _ & Hst).
  pose proof (id_siguiente_nuevo _ w rs Hco Hrs) as Hfresh.
  assert (Htot : resumen r (snd <$> map_to_list rs) !! "total"
                 = Some (Z.of_nat (size rs))).
  { rewrite resumen_total, length_fmap, length_map_to_list. reflexivity. }
  exists err, w', (resumen r (snd <$> map_to_list rs)).
  split; [exact Hrun|].
  split; [rewrite ObtenerEstadisticas_segun_almacen, Hrs; reflexivity|].
  split; [exact Htot|]. split.
  - rewrite ObtenerEstadisticas_segun_almacen, Hrs'.
    rewrite (resumen_insert r rs _ reg Hfresh).
    destruct Hst as [(Hs & _ & ->)|(Hs & _ & ->)];
      destruct r; simpl; unfold EmailNotificador_contar, SMSNotificador_contar;
      rewrite Hs; reflexivity.
  - unfold incrementar. rewrite lookup_insert_eq, Htot. reflexivity.
Qed.

Lemma estadisticas_tras_envio_witness :
  (coherente mundo_tras_envio /\
   almacen (notificador_de (REmail 0)) mundo_tras_envio
     = Some {[ "email_1700000000000000007" := registro_ej ]} /\
   validacion_propia (notificador_de (REmail 0)) "a@b.c" "hola" = None) /\
  exists err w' st,
    EnviarNotificacion (notificador_de (REmail 0)) "a@b.c" "hola" mundo_tras_envio
      = Some (err, w') /\
    ObtenerEstadisticas (REmail 0) mundo_tras_envio = Some (st, mundo_tras_envio) /\
    st !! "total"
      = Some (Z.of_nat (size ({[ "email_1700000000000000007" := registro_ej ]}
                              : gmap string RegistroNotificacion))) /\
    ObtenerEstadisticas (REmail 0) w'
      = Some (incrementar (match err with
                           | None => clave_enviadas (REmail 0)
                           | Some _ => clave_fallidas (REmail 0)
                           end) (incrementar "total" st), w') /\
    incrementar "total" st !! "total"
      = Some (Z.of_nat (size ({[ "email_1700000000000000007" := registro_ej ]}
                              : gmap string RegistroNotificacion)) + 1).
Proof.
  split; [split; [exact coherente_mundo_tras_envio|];
          split; [exact almacen_mundo_tras_envio|reflexivity]|].
  apply estadisticas_tras_envio;
    [exact coherente_mundo_tras_envio|exact almacen_mundo_tras_envio|reflexivity].
Defined.

(** ** The dispatcher acts through the backends *)

Lemma paso_servicio_sigue sn d m w w' : paso_servicio sn d m w w' -> sigue w w'.
Proof.
  intros [n w0 err w1 _ Ha Hrun|l nivel msg w0 w1 _ Hrun|t w0].
  - destruct (EnviarNotificacion_efecto n d m w0 Ha)
      as (err0 & w2 & Hrun2 & _ & Hde & Hah & Has & _).
    rewrite Hrun in Hrun2. injection Hrun2 as <- <-.
    split; [exact Hde|]. split; [exact Hah|exact Has].
  - destruct (Log_efecto l nivel msg w0) as (w2 & Hrun2 & _ & Hsi & _).
    rewrite Hrun in Hrun2. injection Hrun2 as <-. exact Hsi.
  - apply con_traza_sigue.
Qed.

Lemma pasos_servicio_sigue sn d m w w' :
  rtc (paso_servicio sn d m) w w' -> sigue w w'.
Proof.
  induction 1 as [w|w w1 w2 Hp _ IH]; [apply sigue_refl|].
  eapply sigue_trans; [eapply paso_servicio_sigue; exact Hp|exact IH].
Qed.

Lemma sn_EnviarNotificacion_pasos sn d m n w :
  n ∈ notificadores sn -> asignado n w ->
  exists err w',
    sn_EnviarNotificacion n d m w = Some (err, w') /\
    rtc (paso_servicio sn d m) w w'.
Proof.
  intros Hin Ha.
  destruct (EnviarNotificacion_efecto n d m w Ha) as (err & w0 & Hrun & _).
  eexists err, _. split.
  - unfold sn_EnviarNotificacion, bind, anotar, ret. rewrite Hrun. reflexivity.
  - eapply rtc_l; [eapply paso_envio; eassumption|].
    apply rtc_once, paso_traza.
Qed.

Lemma sn_Log_pasos sn d m (info : bool) msg w :
  exists w',
    (if info then sn_LogInfo (logger sn) msg else sn_LogError (logger sn) msg) w
      = Some (tt, w') /\
    rtc (paso_servicio sn d m) w w'.
Proof.
  destruct (logger sn) as [l|] eqn:Hl.
  - destruct (Log_efecto l (if info then "INFO" else "ERROR") msg w)
      as (w1 & Hrun & _).
    destruct info; simpl; unfold bind, anotar;
      [replace (LogInfo l msg) with (Log l "INFO" msg)
         by (destruct l; reflexivity)
      |replace (LogError l (Some msg)) with (Log l "ERROR" msg)
         by (destruct l; reflexivity)];
      rewrite Hrun; (eexists; split; [reflexivity|]);
      (eapply rtc_l; [eapply paso_log; eassumption|]);
      apply rtc_once, paso_traza.
  - exists w. split; [destruct info; reflexivity|apply rtc_refl].
Qed.

Lemma EnviarATodos_bucle_pasos sn d m ns :
  forall res w,
  ns ⊆ notificadores sn ->
  Forall (fun n => asignado n w) ns ->
  exists res' w',
    EnviarATodos_bucle (logger sn) ns d m res w = Some (res', w') /\
    rtc (paso_servicio sn d m) w w'.
Proof.
  induction ns as [|n ns IH]; intros res w Hsub Hall.
  { exists res, w. split; [reflexivity|apply rtc_refl]. }
  inversion Hall as [|? ? Ha Hall']; subst.
  destruct (sn_EnviarNotificacion_pasos sn d m n w) as (err & w1 & Hrun1 & Hp1);
    [apply Hsub; left|exact Ha|].
  assert (Hlog : exists w2,
    match err with
    | Some msg => sn_LogError (logger sn) (nombre_tipo n +:+ " falló: " +:+ msg)
    | None => sn_LogInfo (logger sn) (nombre_tipo n +:+ " éxito")
    end w1 = Some (tt, w2) /\ rtc (paso_servicio sn d m) w1 w2).
  { destruct err as [msg|].
    - apply (sn_Log_pasos sn d m false).
    - apply (sn_Log_pasos sn d m true). }
  destruct Hlog as (w2 & Hrun2 & Hp2).
  assert (Hp12 : rtc (paso_servicio sn d m) w w2) by (etrans; eassumption).
  destruct (IH (<[nombre_tipo n := err]> res) w2) as (res' & w3 & Hrun3 & Hp3).
  - intros x Hx. apply Hsub. right. exact Hx.
  - eapply Forall_asignado_sigue; [|exact Hall'].
    eapply pasos_servicio_sigue; exact Hp12.
  - exists res', w3. split; [|etrans; eassumption].
    simpl. unfold bind at 1. rewrite Hrun1. unfold bind at 1.
    rewrite Hrun2. exact Hrun3.
Qed.

Lemma EnviarConValidacion_bucle_pasos sn d m ns :
  forall res w,
  ns ⊆ notificadores sn ->
  Forall (fun n => asignado n w) ns ->
  exists res' w',
    EnviarConValidacion_bucle ns d m res w = Some (res', w') /\
    rtc (paso_servicio (EstablecerLogger sn None) d m) w w'.
Proof.
  induction ns as [|n ns IH]; intros res w Hsub Hall.
  { exists res, w. split; [reflexivity|apply rtc_refl]. }
  inversion Hall as [|? ? Ha Hall']; subst.
  assert (Hin : n ∈ notificadores (EstablecerLogger sn None))
    by (apply Hsub; left).
  assert (Hsub' : ns ⊆ notificadores sn)
    by (intros x Hx; apply Hsub; right; exact Hx).
  assert (Hsigue : forall w1, rtc (paso_servicio (EstablecerLogger sn None) d m) w w1 ->
            forall res1, exists res' w',
              EnviarConValidacion_bucle ns d m res1 w1 = Some (res', w') /\
              rtc (paso_servicio (EstablecerLogger sn None) d m) w w').
  { intros w1 Hp1 res1.
    destruct (IH res1 w1 Hsub') as (res' & w' & Hrun & Hp).
    - eapply Forall_asignado_sigue; [|exact Hall'].
      eapply pasos_servicio_sigue; exact Hp1.
    - exists res', w'. split; [exact Hrun|etrans; eassumption]. }
  assert (Henviar : forall w1, rtc (paso_servicio (EstablecerLogger sn None) d m) w w1 ->
            exists res' w',
              (err <- sn_EnviarNotificacion n d m ;;
               EnviarConValidacion_bucle ns d m (<[nombre_tipo n := err]> res)) w1
                = Some (res', w') /\
              rtc (paso_servicio (EstablecerLogger sn None) d m) w w').
  { intros w1 Hp1.
    destruct (sn_EnviarNotificacion_pasos (EstablecerLogger sn None) d m n w1 Hin)
      as (err & w2 & Hrun2 & Hp2).
    - apply (pasos_servicio_sigue _ _ _ _ _ Hp1), Ha.
    - destruct (Hsigue w2 (rtc_trans w w1 w2 Hp1 Hp2) (<[nombre_tipo n := err]> res))
        as (res' & w' & Hrun & Hp).
      exists res', w'. split; [|exact Hp].
      unfold bind at 1. rewrite Hrun2. exact Hrun. }
  simpl EnviarConValidacion_bucle.
  destruct (como_ValidadorMensaje n) as [v|]; [|apply Henviar, rtc_refl].
  unfold sn_ValidarMensaje, sn_ValidarDestinatario, anotar, bind at 1 2, ret.
  destruct (ValidarMensaje v m) as [msg|].
  { apply Hsigue. apply rtc_once, paso_traza. }
  unfold bind at 1 2.
  destruct (ValidarDestinatario v d) as [msg|].
  { apply Hsigue. eapply rtc_l; [apply paso_traza|apply rtc_once, paso_traza]. }
  apply Henviar. eapply rtc_l; [apply paso_traza|apply rtc_once, paso_traza].
Qed.

(** X5.  A dispatch changes the world only through the backends: what
    [EnviarATodos] does to the world is a sequence of calls of
    [EnviarNotificacion], with the arguments it was given, on registered
    backends, and of calls of the shared logger (besides entries in the
    history); [EnviarConValidacion] does the same without ever calling the
    logger.  Neither writes to a Record Store or to the output itself. *)
Theorem despacho_por_backends sn d m w :
  Forall (fun n => asignado n w) (notificadores sn) ->
  (exists res w',
     EnviarATodos sn d m w = Some (res, w') /\
     rtc (paso_servicio sn d m) w w') /\
  (exists res w',
     EnviarConValidacion sn d m w = Some (res, w') /\
     rtc (paso_servicio (EstablecerLogger sn None) d m) w w').
Proof.
  intros Hall. split.
  - unfold EnviarATodos.
    destruct (sn_Log_pasos sn d m true
                ("Enviando a " +:+ pretty (length (notificadores sn))
                 +:+ " notificadores") w) as (w1 & Hrun1 & Hp1).
    destruct (EnviarATodos_bucle_pasos sn d m (notificadores sn) ∅ w1)
      as (res & w2 & Hrun2 & Hp2); [done| |].
    + eapply Forall_asignado_sigue; [|exact Hall].
      eapply pasos_servicio_sigue; exact Hp1.
    + exists res, w2. split; [|etrans; eassumption].
      unfold bind. simpl in Hrun1. rewrite Hrun1. exact Hrun2.
  - apply (EnviarConValidacion_bucle_pasos sn d m (notificadores sn) ∅ w);
      [done|exact Hall].
Qed.

Lemma despacho_por_backends_witness :
  Forall (fun n => asignado n mundo_ej) (notificadores servicio_ej) /\
  (exists res w',
     EnviarATodos servicio_ej "admin@empresa.com" "hola" mundo_ej = Some (res, w') /\
     rtc (paso_servicio servicio_ej "admin@empresa.com" "hola") mundo_ej w') /\
  (exists res w',
     EnviarConValidacion servicio_ej "admin@empresa.com" "hola" mundo_ej
       = Some (res, w') /\
     rtc (paso_servicio (EstablecerLogger servicio_ej None)
            "admin@empresa.com" "hola") mundo_ej w').
Proof.
  split; [exact asignados_servicio_ej|].
  apply despacho_por_backends. exact asignados_servicio_ej.
Defined.

(** ** Well-formed records *)

Lemma bien_formados_segun_almacen w w' :
  (forall n, almacen n w' = almacen n w) ->
  almacenes_bien_formados w -> almacenes_bien_formados w'.
Proof. intros Heq Hbf n rs id reg. rewrite Heq. apply Hbf. Qed.

Lemma envio_bien_formado n d m w err w' :
  asignado n w -> EnviarNotificacion n d m w = Some (err, w') ->
  almacenes_bien_formados w -> almacenes_bien_formados w'.
Proof.
  intros Ha Hrun Hbf.
  destruct (EnviarNotificacion_efecto n d m w Ha)
    as (err0 & w0 & Hrun0 & _ & _ & _ & _ & Haj & Hpr).
  rewrite Hrun in Hrun0. injection Hrun0 as <- <-.
  destruct (validacion_propia n d m) as [e|] eqn:Hv.
  { destruct Hpr as [_ ->]. exact Hbf. }
  destruct (almacen n w) as [rs|] eqn:Hrs.
  - destruct (EnviarNotificacion_registro n d m w rs Hrs Hv)
      as (err1 & reg & w1 & Hrun1 & Hrs' & Hid & Htipo & _ & _ & Hint & _ & Hst).
    rewrite Hrun in Hrun1. injection Hrun1 as <- <-.
    intros n0 rs0 id0 reg0 Hrs0 Hreg0.
    destruct (decide (n0 = n)) as [->|Hne].
    + rewrite Hrs' in Hrs0. injection Hrs0 as <-.
      destruct (decide (id0 = id_siguiente n w)) as [->|Hni].
      * rewrite lookup_insert_eq in Hreg0. injection Hreg0 as <-.
        split; [exact Hid|]. split; [exact Htipo|]. split; [exact Hint|].
        destruct Hst as [(? & ? & _)|(? & ? & _)]; auto.
      * rewrite lookup_insert_ne in Hreg0 by done.
        apply (Hbf n rs id0 reg0 Hrs Hreg0).
    + rewrite (Haj n0 Hne) in Hrs0. apply (Hbf n0 rs0 id0 reg0 Hrs0 Hreg0).
  - destruct Hpr as [_ Hnone].
    apply (bien_formados_segun_almacen w w'); [|exact Hbf].
    intros n0. destruct (decide (n0 = n)) as [->|Hne]; [congruence|auto].
Qed.

Lemma paso_servicio_bien_formado sn d m w w' :
  paso_servicio sn d m w w' ->
  almacenes_bien_formados w -> almacenes_bien_formados w'.
Proof.
  intros [n w0 err w1 _ Ha Hrun|l nivel msg w0 w1 _ Hrun|t w0].
  - apply (envio_bien_formado n d m w0 err w1 Ha Hrun).
  - destruct (Log_efecto l nivel msg w0) as (w2 & Hrun2 & _ & _ & Hal & _).
    rewrite Hrun in Hrun2. injection Hrun2 as <-.
    apply bien_formados_segun_almacen, Hal.
  - apply bien_formados_segun_almacen. intros n. apply almacen_con_traza.
Qed.

Lemma pasos_servicio_bien_formado sn d m w w' :
  rtc (paso_servicio sn d m) w w' ->
  almacenes_bien_formados w -> almacenes_bien_formados w'.
Proof.
  induction 1 as [w|w w1 w2 Hp _ IH]; [auto|].
  intros Hbf. apply IH. eapply paso_servicio_bien_formado; eassumption.
Qed.

Lemma nuevo_bien_formado (w w' : Mundo) (n : Notificador) :
  (almacen n w' = None \/ almacen n w' = Some ∅) ->
  (forall n', n' <> n -> almacen n' w' = almacen n' w) ->
  almacenes_bien_formados w -> almacenes_bien_formados w'.
Proof.
  intros Hnew Hotros Hbf n0 rs id reg Hrs Hreg.
  destruct (decide (n0 = n)) as [->|Hne].
  - destruct Hnew as [Hnew|Hnew]; rewrite Hnew in Hrs; [discriminate|].
    injection Hrs as <-. rewrite lookup_empty in Hreg. discriminate.
  - rewrite (Hotros n0 Hne) in Hrs. apply (Hbf n0 rs id reg Hrs Hreg).
Qed.

Lemma ejecutar_bien_formado op w w' :
  operacion_valida op w -> ejecutar op w = Some w' ->
  almacenes_bien_formados w -> almacenes_bien_formados w'.
Proof.
  intros Hval Hrun.
  destruct op; simpl in Hval; simpl ejecutar in Hrun; unfold mundo_tras in Hrun.
  - unfold NuevoEmailNotificador in Hrun. simpl in Hrun. injection Hrun as <-.
    apply (nuevo_bien_formado w _ (NEmail (fresh (dom (emails w))))).
    + right. simpl. rewrite lookup_insert_eq. reflexivity.
    + intros [q|q|q] Hne; simpl; try reflexivity.
      rewrite lookup_insert_ne by congruence. reflexivity.
  - unfold NuevoSMSNotificador in Hrun. simpl in Hrun. injection Hrun as <-.
    apply (nuevo_bien_formado w _ (NSMS (fresh (dom (smss w))))).
    + right. simpl. rewrite lookup_insert_eq. reflexivity.
    + intros [q|q|q] Hne; simpl; try reflexivity.
      rewrite lookup_insert_ne by congruence. reflexivity.
  - unfold NuevoSlackNotificador in Hrun. simpl in Hrun. injection Hrun as <-.
    apply bien_formados_segun_almacen. intros [q|q|q]; reflexivity.
  - destruct (EnviarNotificacion n d m w) as [[err w1]|] eqn:Hs;
      [|discriminate]. injection Hrun as <-.
    apply (envio_bien_formado n d m w err w1 Hval Hs).
  - injection Hrun as <-. auto.
  - injection Hrun as <-. auto.
  - apply asignado_almacen in Hval as [rs Hrs].
    rewrite (ObtenerEstado_almacen (notificador_de r) r id w rs) in Hrun;
      [|destruct r; reflexivity|exact Hrs].
    injection Hrun as <-. auto.
  - apply asignado_almacen in Hval as [rs Hrs].
    rewrite ObtenerEstadisticas_segun_almacen, Hrs in Hrun.
    injection Hrun as <-. auto.
  - destruct (Log_efecto l nivel mensaje w) as (w1 & Hlog & _ & _ & Hal & _).
    rewrite Hlog in Hrun. injection Hrun as <-.
    apply bien_formados_segun_almacen, Hal.
  - destruct Hval as [msg ->].
    destruct (Log_efecto l "ERROR" msg w) as (w1 & Hlog & _ & _ & Hal & _).
    replace (LogError l (Some msg)) with (Log l "ERROR" msg) in Hrun
      by (destruct l; reflexivity).
    rewrite Hlog in Hrun. injection Hrun as <-.
    apply bien_formados_segun_almacen, Hal.
  - destruct (Log_efecto l "INFO" mensaje w) as (w1 & Hlog & _ & _ & Hal & _).
    replace (LogInfo l mensaje) with (Log l "INFO" mensaje) in Hrun
      by (destruct l; reflexivity).
    rewrite Hlog in Hrun. injection Hrun as <-.
    apply bien_formados_segun_almacen, Hal.
  - unfold AgregarNotificador in Hrun. simpl logger in Hrun.
    destruct (sn_LogInfo_efecto (logger sn)
                ("Notificador agregado: " +:+ nombre_tipo n) w)
      as (w1 & Hlog & _ & _ & Hal).
    unfold bind, ret in Hrun. rewrite Hlog in Hrun. injection Hrun as <-.
    apply bien_formados_segun_almacen, Hal.
  - unfold EnviarATodos in Hrun.
    destruct (sn_Log_pasos sn d m true
                ("Enviando a " +:+ pretty (length (notificadores sn))
                 +:+ " notificadores") w) as (w1 & Hrun1 & Hp1).
    destruct (EnviarATodos_bucle_pasos sn d m (notificadores sn) ∅ w1)
      as (res & w2 & Hrun2 & Hp2); [done| |].
    + eapply Forall_asignado_sigue; [|exact Hval].
      eapply pasos_servicio_sigue; exact Hp1.
    + unfold bind in Hrun. simpl in Hrun1. rewrite Hrun1, Hrun2 in Hrun.
      injection Hrun as <-.
      apply (pasos_servicio_bien_formado sn d m w w2). etrans; eassumption.
  - destruct (EnviarConValidacion_bucle_pasos sn d m (notificadores sn) ∅ w)
      as (res & w2 & Hrun2 & Hp2); [done|exact Hval|].
    unfold EnviarConValidacion in Hrun. rewrite Hrun2 in Hrun.
    injection Hrun as <-.
    apply (pasos_servicio_bien_formado _ d m w w2 Hp2).
Qed.

Lemma alcanza_bien_formado w w' :
  alcanza w w' -> almacenes_bien_formados w -> almacenes_bien_formados w'.
Proof.
  induction 1 as [w|w op w1 w2 Hval Hrun _ IH]; [auto|].
  intros Hbf. apply IH. eapply ejecutar_bien_formado; eassumption.
Qed.

Lemma sin_registros_bien_formado w :
  (forall n rs, almacen n w = Some rs -> rs = ∅) -> almacenes_bien_formados w.
Proof.
  intros Hvacio n rs id reg Hrs Hreg. rewrite (Hvacio n rs Hrs) in Hreg.
  rewrite lookup_empty in Hreg. discriminate.
Qed.

Lemma bien_formados_mundo_ej : almacenes_bien_formados mundo_ej.
Proof. apply sin_registros_bien_formado, almacen_mundo_ej. Qed.

Lemma alcanza_mundo_tras_envio : alcanza mundo_ej mundo_tras_envio.
Proof.
  apply (alcanza_paso mundo_ej (OpEnviarNotificacion (NEmail 0) "user@x.com" "hi")
           mundo_tras_envio); [vm_compute; eauto| |apply alcanza_aqui].
  unfold ejecutar, mundo_tras. rewrite mundo_tras_envio_eq. reflexivity.
Qed.

(** X9.  Through every sequence of operations of the backends and of the
    dispatcher, on allocated receivers, the records in the stores stay well
    formed: each is stored under its own [ID], carries the [Tipo] of its
    backend and one attempt, and is either [Enviada] with an empty [Error] or
    [Fallida] with the backend's error text.  A world without records is
    well formed, so this holds from the start of the program on; in
    particular no record is left [Pendiente] between operations. *)
Theorem registros_bien_formados w w' :
  almacenes_bien_formados w -> alcanza w w' ->
  almacenes_bien_formados w' /\
  (forall n rs id reg, almacen n w' = Some rs -> rs !! id = Some reg ->
     Estado reg <> Pendiente /\ Estado reg <> Entregada /\
     (Error reg = "" <-> Estado reg = Enviada)).
Proof.
  intros Hbf Hreach.
  pose proof (alcanza_bien_formado w w' Hreach Hbf) as Hbf'.
  split; [exact Hbf'|].
  intros n rs id reg Hrs Hreg.
  destruct (Hbf' n rs id reg Hrs Hreg) as (_ & _ & _ & [[Hs He]|[Hs He]]);
    rewrite Hs, He.
  - repeat split; auto; discriminate.
  - split; [discriminate|]. split; [discriminate|].
    split; [destruct n; discriminate|discriminate].
Qed.

Lemma registros_bien_formados_witness :
  (almacenes_bien_formados mundo_ej /\ alcanza mundo_ej mundo_tras_envio) /\
  almacenes_bien_formados mundo_tras_envio /\
  (forall n rs id reg, almacen n mundo_tras_envio = Some rs ->
     rs !! id = Some reg ->
     Estado reg <> Pendiente /\ Estado reg <> Entregada /\
     (Error reg = "" <-> Estado reg = Enviada)).
Proof.
  split; [split; [exact bien_formados_mundo_ej|exact alcanza_mundo_tras_envio]|].
  apply (registros_bien_formados mundo_ej mundo_tras_envio);
    [exact bien_formados_mundo_ej|exact alcanza_mundo_tras_envio].
Defined.

Lemma cuantos_bien_formados l :
  Forall (fun reg => Estado reg = Enviada \/ Estado reg = Fallida) l ->
  cuantos Pendiente l = 0 /\
  cuantos Enviada l + cuantos Fallida l = Z.of_nat (length l) /\
  0 <= cuantos Enviada l /\ 0 <= cuantos Fallida l.
Proof.
  induction 1 as [|reg l Hreg _ IH].
  - repeat split; unfold cuantos; simpl; lia.
  - rewrite !cuantos_cons. simpl length. destruct IH as (Hp & Hs & He & Hf).
    destruct Hreg as [Hreg|Hreg]; rewrite Hreg;
      repeat case_decide; try congruence; lia.
Qed.

(** X10.  On a store of well-formed records (every store the program
    produces), [ObtenerEstadisticas] reports no pending record, and its
    total, which is the number of records in the store, is the sum of the
    sent and the failed counts. *)
Theorem estadisticas_bien_formadas (r : Rastreador) w rs :
  almacenes_bien_formados w ->
  almacen (notificador_de r) w = Some rs ->
  exists e f,
    ObtenerEstadisticas r w = Some (estadisticas_de r e f, w) /\
    0 <= e /\ 0 <= f /\ e + f = Z.of_nat (size rs).
Proof.
  intros Hbf Hrs.
  set (l := snd <$> map_to_list rs).
  assert (Hall : Forall (fun reg => Estado reg = Enviada \/ Estado reg = Fallida) l).
  { apply Forall_forall. intros reg Hin.
    apply list_elem_of_fmap in Hin as ([id reg'] & -> & Hin).
    apply elem_of_map_to_list in Hin. simpl.
    destruct (Hbf _ rs id reg' Hrs Hin) as (_ & _ & _ & [[? _]|[? _]]); auto. }
  destruct (cuantos_bien_formados l Hall) as (Hp & Hs & He & Hf).
  exists (cuantos Enviada l), (cuantos Fallida l).
  split; [|split; [exact He|split; [exact Hf|]]].
  - rewrite ObtenerEstadisticas_segun_almacen, Hrs. fold l.
    unfold estadisticas_de. rewrite Hs.
    destruct r; simpl; rewrite Hp; reflexivity.
  - rewrite Hs. subst l. rewrite length_fmap, length_map_to_list. reflexivity.
Qed.

Lemma bien_formados_mundo_tras_envio : almacenes_bien_formados mundo_tras_envio.
Proof.
  apply (envio_bien_formado (NEmail 0) "user@x.com" "hi" mundo_ej None).
  - vm_compute. eauto.
  - exact mundo_tras_envio_eq.
  - exact bien_formados_mundo_ej.
Qed.

Lemma estadisticas_bien_formadas_witness :
  (almacenes_bien_formados mundo_tras_envio /\
   almacen (notificador_de (REmail 0)) mundo_tras_envio
     = Some {[ "email_1700000000000000007" := registro_ej ]}) /\
  exists e f,
    ObtenerEstadisticas (REmail 0) mundo_tras_envio
      = Some (estadisticas_de (REmail 0) e f, mundo_tras_envio) /\
    0 <= e /\ 0 <= f /\
    e + f = Z.of_nat (size ({[ "email_1700000000000000007" := registro_ej ]}
                            : gmap string RegistroNotificacion)).
Proof.
  split; [split; [exact bien_formados_mundo_tras_envio
                 |exact almacen_mundo_tras_envio]|].
  apply estadisticas_bien_formadas;
    [exact bien_formados_mundo_tras_envio|exact almacen_mundo_tras_envio].
Defined.

(** ** The constructors *)

Lemma recien_construido_email servidor puerto usuario password w :
  exists p w',
    NuevoEmailNotificador servidor puerto usuario password w = Some (p, w') /\
    recien_construido (REmail p) w w' /\
    emails w' !! p =
      Some {| e_servidor := servidor; e_puerto := puerto; e_usuario := usuario;
              e_password := password;
              e_configuracion := {| MaxIntentos := 3; TimeoutSegundos := 30;
                                    ReintentoAuto := true |};
              e_registros := ∅ |}.
Proof.
  set (p := fresh (dom (emails w))).
  set (e0 := {| e_servidor := servidor; e_puerto := puerto;
                e_usuario := usuario; e_password := password;
                e_configuracion := {| MaxIntentos := 3; TimeoutSegundos := 30;
                                      ReintentoAuto := true |};
                e_registros := ∅ |}).
  set (w' := con_emails (<[p := e0]> (emails w)) w).
  exists p, w'. split; [reflexivity|].
  assert (Hp : emails w !! p = None) by apply fresh_no_asignado.
  assert (Hal : almacen (NEmail p) w' = Some ∅)
    by (simpl; rewrite lookup_insert_eq; reflexivity).
  split; [|simpl; apply lookup_insert_eq].
  split; [simpl; rewrite Hp; intros [? ?]; discriminate|].
  split; [simpl; rewrite lookup_insert_eq; eauto|].
  split; [exact Hal|]. split.
  { intros [q|q|q] Hne; subst w'; simpl; try tauto.
    rewrite lookup_insert_ne by (intros ->; apply Hne; reflexivity). tauto. }
  split.
  { rewrite ObtenerEstadisticas_segun_almacen. simpl notificador_de.
    rewrite Hal. rewrite map_to_list_empty. reflexivity. }
  split.
  { intros id.
    rewrite (ObtenerEstado_almacen (NEmail p) (REmail p) id w' ∅ eq_refl Hal).
    rewrite lookup_empty. reflexivity. }
  repeat split; reflexivity.
Qed.

Lemma recien_construido_sms apiKey proveedor w :
  exists p w',
    NuevoSMSNotificador apiKey proveedor w = Some (p, w') /\
    recien_construido (RSMS p) w w' /\
    smss w' !! p = Some {| s_apiKey := apiKey; s_proveedor := proveedor;
                           s_registros := ∅ |}.
Proof.
  set (p := fresh (dom (smss w))).
  set (s0 := {| s_apiKey := apiKey; s_proveedor := proveedor;
                s_registros := ∅ |}).
  set (w' := con_smss (<[p := s0]> (smss w)) w).
  exists p, w'. split; [reflexivity|].
  assert (Hp : smss w !! p = None) by apply fresh_no_asignado.
  assert (Hal : almacen (NSMS p) w' = Some ∅)
    by (simpl; rewrite lookup_insert_eq; reflexivity).
  split; [|simpl; apply lookup_insert_eq].
  split; [simpl; rewrite Hp; intros [? ?]; discriminate|].
  split; [simpl; rewrite lookup_insert_eq; eauto|].
  split; [exact Hal|]. split.
  { intros [q|q|q] Hne; subst w'; simpl; try tauto.
    rewrite lookup_insert_ne by (intros ->; apply Hne; reflexivity). tauto. }
  split.
  { rewrite ObtenerEstadisticas_segun_almacen. simpl notificador_de.
    rewrite Hal. rewrite map_to_list_empty. reflexivity. }
  split.
  { intros id.
    rewrite (ObtenerEstado_almacen (NSMS p) (RSMS p) id w' ∅ eq_refl Hal).
    rewrite lookup_empty. reflexivity. }
  repeat split; reflexivity.
Qed.

(** X11.  Each constructor returns, in any world, a new object: one that was
    not allocated before and is after, holding the arguments it was given
    (and, for email, the configuration 3 attempts, 30 seconds, automatic
    retry).  A new email or SMS backend has an empty Record Store: its
    statistics are all zero and [ObtenerEstado] finds no id.  No other
    backend, and neither the clock nor the output, is touched. *)
Theorem constructores_nuevos w :
  (forall servidor puerto usuario password,
     exists p w',
       NuevoEmailNotificador servidor puerto usuario password w = Some (p, w') /\
       recien_construido (REmail p) w w' /\
       emails w' !! p =
         Some {| e_servidor := servidor; e_puerto := puerto;
                 e_usuario := usuario; e_password := password;
                 e_configuracion := {| MaxIntentos := 3; TimeoutSegundos := 30;
                                       ReintentoAuto := true |};
                 e_registros := ∅ |}) /\
  (forall apiKey proveedor,
     exists p w',
       NuevoSMSNotificador apiKey proveedor w = Some (p, w') /\
       recien_construido (RSMS p) w w' /\
       smss w' !! p = Some {| s_apiKey := apiKey; s_proveedor := proveedor;
                              s_registros := ∅ |}) /\
  (forall webhook canal,
     exists p w',
       NuevoSlackNotificador webhook canal w = Some (p, w') /\
       ~ asignado (NSlack p) w /\
       slacks w' !! p = Some {| sl_webhook := webhook; sl_canal := canal |} /\
       (forall n, almacen n w' = almacen n w) /\
       (forall n, n <> NSlack p -> (asignado n w' <-> asignado n w))).
Proof.
  split; [intros; apply recien_construido_email|].
  split; [intros; apply recien_construido_sms|].
  intros webhook canal. eexists _, _. split; [reflexivity|].
  set (p := fresh (dom (slacks w))).
  assert (Hp : slacks w !! p = None) by apply fresh_no_asignado.
  split; [simpl; rewrite Hp; intros [? ?]; discriminate|].
  split; [simpl; apply lookup_insert_eq|].
  split; [intros [q|q|q]; reflexivity|].
  intros [q|q|q] Hne; simpl; try tauto.
  rewrite lookup_insert_ne by congruence. tauto.
Qed.

(** ** Registration *)

(** X6.  Registering backends one after the other appends them to the
    collection in that order, duplicates included, and leaves the logger
    slot as it was; it needs nothing of the backends (they may even be
    unallocated).  Without a shared logger the world is untouched; with one,
    the logger is called once per registration, with the type name of the
    backend, and writes one line each time.  No Record Store changes. *)
Theorem AgregarNotificadores_en_orden (ns : list Notificador) :
  forall sn w,
  exists sn' w',
    AgregarNotificadores sn ns w = Some (sn', w') /\
    notificadores sn' = notificadores sn ++ ns /\
    logger sn' = logger sn /\
    (forall n, almacen n w' = almacen n w) /\
    match logger sn with
    | None => w' = w
    | Some l =>
        traza w' = traza w ++
          ((fun n => LlLogInfo l ("Notificador agregado: " +:+ nombre_tipo n))
             <$> ns) /\
        length (salida w') = (length (salida w) + length ns)%nat
    end.
Proof.
  induction ns as [|n ns IH]; intros sn w.
  { exists sn, w. split; [reflexivity|]. split; [symmetry; apply app_nil_r|].
    split; [reflexivity|]. split; [reflexivity|].
    destruct (logger sn); [|reflexivity].
    split; [symmetry; apply app_nil_r|simpl; lia]. }
  set (sn1 := {| notificadores := notificadores sn ++ [n]; logger := logger sn |}).
  assert (Hpaso : exists w1,
    AgregarNotificador sn n w = Some (sn1, w1) /\
    (forall n0, almacen n0 w1 = almacen n0 w) /\
    match logger sn with
    | None => w1 = w
    | Some l =>
        traza w1 = traza w ++
          [LlLogInfo l ("Notificador agregado: " +:+ nombre_tipo n)] /\
        length (salida w1) = S (length (salida w))
    end).
  { unfold AgregarNotificador. simpl logger. fold sn1.
    destruct (logger sn) as [l|]; simpl.
    - destruct l; simpl; desplegar; simpl;
        (eexists; split; [reflexivity|]);
        (split; [intros [?|?|?]; reflexivity|]);
        simpl; rewrite length_app; simpl; (split; [reflexivity|lia]).
    - exists w. repeat split; reflexivity. }
  destruct Hpaso as (w1 & Hrun1 & Hal1 & Hlog1).
  destruct (IH sn1 w1) as (sn' & w' & Hrun & Hns & Hlg & Hal & Hlog).
  exists sn', w'.
  split; [simpl; unfold bind; rewrite Hrun1; exact Hrun|].
  split; [rewrite Hns; simpl; rewrite <- app_assoc; reflexivity|].
  split; [rewrite Hlg; reflexivity|].
  split; [intros n0; rewrite Hal; apply Hal1|].
  simpl logger in Hlog. destruct (logger sn) as [l|].
  - destruct Hlog as [Htr Hsal]. destruct Hlog1 as [Htr1 Hsal1].
    split; [rewrite Htr, Htr1, <- app_assoc; reflexivity|].
    rewrite Hsal, Hsal1. simpl. lia.
  - congruence.
Qed.

Example ej_AgregarNotificadores :
  exists w',
    AgregarNotificadores (EstablecerLogger NuevoServicioNotificaciones
                            (Some (LEmail 0)))
      [NEmail 0; NSMS 0; NSlack 0] mundo_ej
    = Some (servicio_ej, w') /\
    length (salida w') = 3%nat.
Proof. eexists. split; vm_compute; reflexivity. Qed.

(** ** What [EnviarATodos] logs *)





(** ** [EnviarConValidacion] against [EnviarATodos] *)

(** No backend reads the history: a delivery from a world with another
    history does the same, and leaves that history in place. *)
Lemma EnviarNotificacion_con_traza n d m t w :
  EnviarNotificacion n d m (con_traza t w) =
  match EnviarNotificacion n d m w with
  | Some (e, w') => Some (e, con_traza t w')
  | None => None
  end.
Proof.
  destruct n as [p|p|p]; simpl.
  - unfold EmailNotificador_EnviarNotificacion.
    destruct (EmailNotificador_ValidarDestinatario d); [reflexivity|].
    destruct (EmailNotificador_ValidarMensaje m); [reflexivity|].
    unfold EmailNotificador_crear_registro, EmailNotificador_entregar.
    desplegar. simpl.
    destruct (emails w !! p); [|reflexivity]. simpl.
    destruct (Z.rem _ 10 =? 0); simpl;
      repeat (rewrite lookup_insert_eq; simpl); reflexivity.
  - unfold SMSNotificador_EnviarNotificacion.
    destruct (SMSNotificador_ValidarDestinatario d); [reflexivity|].
    destruct (SMSNotificador_ValidarMensaje m); [reflexivity|].
    unfold SMSNotificador_crear_registro, SMSNotificador_entregar.
    desplegar. simpl.
    destruct (smss w !! p); [|reflexivity]. simpl.
    repeat (rewrite lookup_insert_eq; simpl).
    destruct (Z.rem _ 20 =? 0); simpl;
      repeat (rewrite lookup_insert_eq; simpl); reflexivity.
  - unfold SlackNotificador_EnviarNotificacion. desplegar. simpl.
    destruct (slacks w !! p); reflexivity.
Qed.

Lemma sn_EnviarNotificacion_con_traza n d m t w :
  sn_EnviarNotificacion n d m (con_traza t w) =
  match EnviarNotificacion n d m w with
  | Some (e, w') =>
      Some (e, con_traza (t ++ [LlEnviarNotificacion n d m e]) w')
  | None => None
  end.
Proof.
  unfold sn_EnviarNotificacion, bind, anotar, ret.
  rewrite EnviarNotificacion_con_traza.
  destruct (EnviarNotificacion n d m w) as [[e w']|]; reflexivity.
Qed.

Lemma bucles_coinciden d m ns :
  forall res t1 t2 w,
  (forall n, n ∈ ns -> rechazo_validacion n d m = None) ->
  sin_traza (EnviarConValidacion_bucle ns d m res (con_traza t1 w)) =
  sin_traza (EnviarATodos_bucle None ns d m res (con_traza t2 w)).
Proof.
  induction ns as [|n ns IH]; intros res t1 t2 w Hok; [reflexivity|].
  assert (Hn : rechazo_validacion n d m = None) by (apply Hok; left).
  assert (Hok' : forall n', n' ∈ ns -> rechazo_validacion n' d m = None)
    by (intros n' Hn'; apply Hok; right; exact Hn').
  assert (Henviar : forall t,
    sin_traza ((err <- sn_EnviarNotificacion n d m ;;
                EnviarConValidacion_bucle ns d m (<[nombre_tipo n := err]> res))
                 (con_traza t w)) =
    sin_traza (EnviarATodos_bucle None (n :: ns) d m res (con_traza t2 w))).
  { intros t. simpl EnviarATodos_bucle. unfold bind.
    rewrite !sn_EnviarNotificacion_con_traza.
    destruct (EnviarNotificacion n d m w) as [[e w']|]; [|reflexivity].
    destruct e as [msg|]; simpl sn_LogError; simpl sn_LogInfo; unfold ret;
      apply IH, Hok'. }
  unfold rechazo_validacion in Hn. simpl EnviarConValidacion_bucle.
  destruct (como_ValidadorMensaje n) as [v|]; [|apply Henviar].
  unfold sn_ValidarMensaje, sn_ValidarDestinatario.
  destruct (ValidarMensaje v m); [discriminate|].
  destruct (ValidarDestinatario v d); [discriminate|].
  apply (Henviar ((t1 ++ [LlValidarMensaje v m None])
                  ++ [LlValidarDestinatario v d None])).
Qed.

Lemma con_traza_propia w : con_traza (traza w) w = w.
Proof. destruct w; reflexivity. Qed.

(** X13.  When the dispatcher's validation turns no registered backend
    down, [EnviarConValidacion] returns the map that [EnviarATodos] returns
    without a shared logger, and leaves the same stores, clock and output
    (or panics when it does): validating first changes nothing but the
    history of calls. *)
Theorem EnviarConValidacion_como_EnviarATodos sn d m w :
  logger sn = None ->
  (forall n, n ∈ notificadores sn -> rechazo_validacion n d m = None) ->
  sin_traza (EnviarConValidacion sn d m w) = sin_traza (EnviarATodos sn d m w).
Proof.
  intros Hlg Hok. unfold EnviarConValidacion, EnviarATodos.
  rewrite Hlg. simpl. unfold bind, ret.
  rewrite <- (con_traza_propia w).
  apply (bucles_coinciden d m (notificadores sn) ∅ (traza w) (traza w) w Hok).
Qed.

Lemma EnviarConValidacion_como_EnviarATodos_witness :
  (logger servicio_doble_ej = None /\
   forall n, n ∈ notificadores servicio_doble_ej ->
     rechazo_validacion n "user@x.com" "hi" = None) /\
  sin_traza (EnviarConValidacion servicio_doble_ej "user@x.com" "hi" mundo_ej)
  = sin_traza (EnviarATodos servicio_doble_ej "user@x.com" "hi" mundo_ej).
Proof.
  assert (Hok : forall n, n ∈ notificadores servicio_doble_ej ->
                  rechazo_validacion n "user@x.com" "hi" = None).
  { intros n Hn. simpl in Hn.
    repeat (apply elem_of_cons in Hn as [->|Hn]; [reflexivity|]).
    inversion Hn. }
  split; [split; [reflexivity|exact Hok]|].
  apply EnviarConValidacion_como_EnviarATodos; [reflexivity|exact Hok].
Defined.

(** ** The capability analysis *)



